(** * Credential handling and account flows of the landing-page backend

    A shallow embedding of [src/main.py]: the two credential helpers
    [hash_password] and [verify_password], the [signup] and [login]
    handlers that use them, the blog endpoints [list_posts] and
    [get_post] and the derived fields of [create_post], together with
    the library functions they call ([hashlib.sha256], [str.encode],
    [secrets.token_hex], [secrets.token_urlsafe], [str.split]).

    Representation of text.  A Python [str] is a sequence of code
    points, and a code point may be a surrogate (U+D800 to U+DFFF).  A
    text is represented here by a Rocq [string] that holds every code
    point in the UTF-8 scheme, surrogates too: the bytes that
    [s.encode("utf-8", "surrogatepass")] gives.  Concatenation of texts
    is concatenation of their representations, and the delimiter [$]
    (byte 36) occurs in a representation exactly where the character
    occurs in the text.  A surrogate is the byte 237 followed by a byte
    from 160 to 191.  The strict [s.encode("utf-8")] of the source gives
    the same bytes when the text holds no surrogate, and raises
    [UnicodeEncodeError] when it holds one. *)

From Stdlib Require Import ZArith List String Ascii Lia.
From stdpp Require Import base decidable option list strings gmap fin_maps.
Import ListNotations.

Local Open Scope Z_scope.
Local Open Scope string_scope.
Local Open Scope list_scope.

(** ** Bytes and hexadecimal text *)

Definition byte_of_ascii (c : ascii) : Z := Z.of_N (N_of_ascii c).

Definition bytes_of_string (s : string) : list Z :=
  map byte_of_ascii (list_ascii_of_string s).

Definition hex_alphabet : list ascii :=
  list_ascii_of_string "0123456789abcdef".

(** The lowercase hexadecimal digit of a value below 16. *)
Definition hex_digit (n : Z) : ascii :=
  nth (Z.to_nat (n mod 16)) hex_alphabet "0"%char.

(** [bytes.hex()]: two lowercase digits per byte, high nibble first. *)
Definition hex_of_byte (b : Z) : list ascii :=
  [hex_digit (Z.shiftr b 4); hex_digit b].

Definition hexlify (bs : list Z) : string :=
  string_of_list_ascii (flat_map hex_of_byte bs).

(** ** SHA-256 (FIPS 180-4), as computed by [hashlib.sha256] *)

Module Sha256.

Definition mask32 : Z := 0xffffffff.
Definition wrap32 (x : Z) : Z := x mod 2 ^ 32.
Definition add32 (x y : Z) : Z := wrap32 (x + y).
Definition not32 (x : Z) : Z := Z.lxor x mask32.

Definition rotr (n x : Z) : Z :=
  wrap32 (Z.lor (Z.shiftr x n) (Z.shiftl x (32 - n))).
Definition shr (n x : Z) : Z := Z.shiftr x n.

Definition Ch (x y z : Z) : Z :=
  Z.lxor (Z.land x y) (Z.land (not32 x) z).
Definition Maj (x y z : Z) : Z :=
  Z.lxor (Z.lxor (Z.land x y) (Z.land x z)) (Z.land y z).
Definition Sigma0 (x : Z) : Z :=
  Z.lxor (Z.lxor (rotr 2 x) (rotr 13 x)) (rotr 22 x).
Definition Sigma1 (x : Z) : Z :=
  Z.lxor (Z.lxor (rotr 6 x) (rotr 11 x)) (rotr 25 x).
Definition sigma0 (x : Z) : Z :=
  Z.lxor (Z.lxor (rotr 7 x) (rotr 18 x)) (shr 3 x).
Definition sigma1 (x : Z) : Z :=
  Z.lxor (Z.lxor (rotr 17 x) (rotr 19 x)) (shr 10 x).

(** The constants are fractional parts of roots of the first primes.
    [floor_root k n] is the integer part of the [k]-th root of [n],
    found bit by bit from [bits] downwards. *)
Fixpoint root_bits (k n : Z) (bits : nat) (r : Z) : Z :=
  match bits with
  | O => r
  | S b =>
      let r' := r + 2 ^ Z.of_nat b in
      root_bits k n b (if Z.leb (r' ^ k) n then r' else r)
  end.

Definition floor_root (k n : Z) : Z := root_bits k n 40 0.

(** The first 32 bits of the fractional part of the [k]-th root of [p]. *)
Definition frac_root32 (k p : Z) : Z :=
  wrap32 (floor_root k (p * 2 ^ (32 * k))).

Definition is_prime (n : Z) : bool :=
  forallb (fun d => negb (Z.eqb (n mod Z.of_nat d) 0)) (seq 2 (Z.to_nat n - 2)).

(** The first 64 primes, 2 to 311. *)
Definition primes : list Z :=
  Eval vm_compute in
    filter (fun n => Is_true (is_prime n)) (map Z.of_nat (seq 2 310)).

(** Round constants: cube roots of the first 64 primes. *)
Definition K : list Z := Eval vm_compute in map (frac_root32 3) primes.

(** The eight working variables, also the chaining value. *)
Record state := State {
  ha : Z; hb : Z; hc : Z; hd : Z; he : Z; hf : Z; hg : Z; hh : Z
}.

(** Initial chaining value: square roots of the first 8 primes. *)
Definition H0 : state :=
  Eval vm_compute in
    let h := fun i => frac_root32 2 (nth i primes 0) in
    State (h 0%nat) (h 1%nat) (h 2%nat) (h 3%nat)
          (h 4%nat) (h 5%nat) (h 6%nat) (h 7%nat).

(** One round with round constant [k] and schedule word [w]. *)
Definition round (k w : Z) (s : state) : state :=
  let t1 := add32 (add32 (add32 (add32 (hh s) (Sigma1 (he s)))
                                (Ch (he s) (hf s) (hg s))) k) w in
  let t2 := add32 (Sigma0 (ha s)) (Maj (ha s) (hb s) (hc s)) in
  State (add32 t1 t2) (ha s) (hb s) (hc s)
        (add32 (hd s) t1) (he s) (hf s) (hg s).

(** The message schedule is kept as a window of the sixteen most recent
    words, [W(t) .. W(t+15)]; sliding it computes [W(t+16)]. *)
Definition slide (win : list Z) : list Z :=
  let w' := add32 (add32 (add32 (sigma1 (nth 14 win 0)) (nth 9 win 0))
                         (sigma0 (nth 1 win 0))) (nth 0 win 0) in
  tl win ++ [w'].

Fixpoint rounds (ks : list Z) (win : list Z) (s : state) : state :=
  match ks with
  | [] => s
  | k :: ks' => rounds ks' (slide win) (round k (nth 0 win 0) s)
  end.

Definition add_state (s t : state) : state :=
  State (add32 (ha s) (ha t)) (add32 (hb s) (hb t))
        (add32 (hc s) (hc t)) (add32 (hd s) (hd t))
        (add32 (he s) (he t)) (add32 (hf s) (hf t))
        (add32 (hg s) (hg t)) (add32 (hh s) (hh t)).

(** Big-endian words of a byte sequence, four bytes per word. *)
Fixpoint words_of_bytes (bs : list Z) : list Z :=
  match bs with
  | b0 :: b1 :: b2 :: b3 :: rest =>
      (((b0 * 256 + b1) * 256 + b2) * 256 + b3) :: words_of_bytes rest
  | _ => []
  end.

Definition compress (s : state) (block : list Z) : state :=
  add_state s (rounds K (words_of_bytes block) s).

(** Big-endian bytes of [x], [n] of them. *)
Fixpoint be_bytes (n : nat) (x : Z) : list Z :=
  match n with
  | O => []
  | S n' => be_bytes n' (Z.shiftr x 8) ++ [x mod 256]
  end.

(** Padding: a single 1 bit, zeros up to 56 modulo 64 bytes, then the
    message length in bits as a 64-bit big-endian integer. *)
Definition pad (msg : list Z) : list Z :=
  let len := Z.of_nat (length msg) in
  let zeros := Z.to_nat ((55 - len) mod 64) in
  msg ++ [128] ++ repeat 0 zeros ++ be_bytes 8 ((8 * len) mod 2 ^ 64).

Fixpoint blocks (n : nat) (bs : list Z) (s : state) : state :=
  match n with
  | O => s
  | S n' => blocks n' (skipn 64 bs) (compress s (firstn 64 bs))
  end.

Definition digest_state (msg : list Z) : state :=
  let padded := pad msg in
  blocks (length padded / 64)%nat padded H0.

Definition state_words (s : state) : list Z :=
  [ha s; hb s; hc s; hd s; he s; hf s; hg s; hh s].

(** The 32-byte digest. *)
Definition digest (msg : list Z) : list Z :=
  flat_map (be_bytes 4) (state_words (digest_state msg)).

(** [hashlib.sha256(data).hexdigest()] *)
Definition hexdigest (msg : list Z) : string := hexlify (digest msg).

End Sha256.

(** The digest, in hexadecimal, of the bytes of a text: what
    [hashlib.sha256(s.encode("utf-8")).hexdigest()] gives for a text that
    has an encoding. *)
Definition sha256_hex (s : string) : string :=
  Sha256.hexdigest (bytes_of_string s).

(** ** [str.split] and counting on strings *)

(** [s.split(sep)] for a one-character separator: every occurrence of
    [sep] ends a part, and empty parts are kept. *)
Fixpoint str_split (sep : ascii) (s : string) : list string :=
  match s with
  | EmptyString => [EmptyString]
  | String c rest =>
      if Ascii.eqb c sep then EmptyString :: str_split sep rest
      else match str_split sep rest with
           | part :: parts => String c part :: parts
           | [] => [String c EmptyString]
           end
  end.

(** [s.count(c)] for a one-character [c]. *)
Fixpoint str_count (c : ascii) (s : string) : nat :=
  match s with
  | EmptyString => O
  | String c' rest =>
      if Ascii.eqb c' c then S (str_count c rest) else str_count c rest
  end.

(** ** Exceptions and results *)

Inductive exn : Type :=
| ValueError
| UnicodeEncodeError
| AttributeError
| TypeError
| HTTPException (status_code : Z) (detail : string).

Inductive result (A : Type) : Type :=
| Returns (a : A)
| Raises (e : exn).
Arguments Returns {A} a.
Arguments Raises {A} e.

(** Unpacking [a, b = parts] raises [ValueError] unless there are exactly
    two parts. *)
Definition unpack2 (parts : list string) : result (string * string) :=
  match parts with
  | [a; b] => Returns (a, b)
  | _ => Raises ValueError
  end.

Definition result_bind {A B} (r : result A) (k : A -> result B) : result B :=
  match r with
  | Returns a => k a
  | Raises e => Raises e
  end.

(** ** Encoding a text *)

(** Whether a text holds a surrogate code point. *)
Fixpoint has_surrogate (s : string) : bool :=
  match s with
  | EmptyString => false
  | String c rest =>
      match rest with
      | EmptyString => false
      | String d _ =>
          (Z.eqb (byte_of_ascii c) 237
           && Z.leb 160 (byte_of_ascii d) && Z.leb (byte_of_ascii d) 191)
          || has_surrogate rest
      end
  end.

(** [s.encode("utf-8")] *)
Definition encode_utf8 (s : string) : result (list Z) :=
  if has_surrogate s then Raises UnicodeEncodeError
  else Returns (bytes_of_string s).

(** ** Documents and the world a request runs in *)

(** The values of the fields of a document: [None], texts, booleans,
    integers, times, the identifiers of the store, bytes and lists of
    texts. *)
Inductive value : Type :=
| VNone
| VStr (s : string)
| VBool (b : bool)
| VInt (i : Z)
| VTime (t : Z)
| VId (n : N)
| VBytes (bs : list Z)
| VList (l : list string).

Global Instance value_eq_dec : EqDecision value.
Proof. solve_decision. Defined.

(** A document is a Python dict with string keys. *)
Abbreviation document := (gmap string value).

(** The document store: each named collection holds its records in
    insertion order. *)
Abbreviation database := (gmap string (list (gmap string value))).

(** The world of a request: the document store, the supply of
    identifiers, the operating system's random bytes (an unbounded supply
    [urandom], of which [drawn] bytes are used) and the clock, read by
    [datetime.utcnow()]. *)
Record World := mkWorld {
  store : database;
  next_id : N;
  urandom : nat -> Z;
  drawn : nat;
  clock : Z
}.

(** State and exceptions: a computation runs in a world, and returns or
    raises, leaving a world. *)
Definition M (A : Type) : Type := World -> result A * World.

Definition ret {A} (a : A) : M A := fun w => (Returns a, w).
Definition raise {A} (e : exn) : M A := fun w => (Raises e, w).
Definition bind {A B} (m : M A) (k : A -> M B) : M B :=
  fun w => match m w with
           | (Returns a, w') => k a w'
           | (Raises e, w') => (Raises e, w')
           end.
Definition lift {A} (r : result A) : M A := fun w => (r, w).

Notation "'let*' x ':=' m 'in' k" := (bind m (fun x => k))
  (at level 10, x name, m at level 100, k at level 200).

(** ** The [secrets] module *)

(** [secrets.token_bytes(n)] *)
Definition token_bytes (n : nat) : M (list Z) :=
  fun w =>
    (Returns (map (fun i => urandom w i mod 256) (seq (drawn w) n)),
     mkWorld (store w) (next_id w) (urandom w) (drawn w + n)%nat (clock w)).

(** [secrets.token_hex(n)] *)
Definition token_hex (n : nat) : M string :=
  let* bs := token_bytes n in ret (hexlify bs).

Definition b64_alphabet : list ascii :=
  list_ascii_of_string
    "ABCDEFGHIJKLMNOPQRSTUVWXYZabcdefghijklmnopqrstuvwxyz0123456789-_".

Definition b64_digit (n : Z) : ascii :=
  nth (Z.to_nat (n mod 64)) b64_alphabet "A"%char.

(** URL-safe base64 with the padding stripped. *)
Fixpoint b64_urlsafe (bs : list Z) : list ascii :=
  match bs with
  | b0 :: b1 :: b2 :: rest =>
      let n := (b0 * 256 + b1) * 256 + b2 in
      b64_digit (Z.shiftr n 18) :: b64_digit (Z.shiftr n 12)
        :: b64_digit (Z.shiftr n 6) :: b64_digit n :: b64_urlsafe rest
  | [b0; b1] =>
      let n := (b0 * 256 + b1) * 4 in
      [b64_digit (Z.shiftr n 12); b64_digit (Z.shiftr n 6); b64_digit n]
  | [b0] =>
      let n := b0 * 16 in
      [b64_digit (Z.shiftr n 6); b64_digit n]
  | [] => []
  end.

(** [secrets.token_urlsafe(n)] *)
Definition token_urlsafe (n : nat) : M string :=
  let* bs := token_bytes n in
  ret (string_of_list_ascii (b64_urlsafe bs)).

(** ** Utility helpers of [main.py] *)

(** [x or alt] on an optional string: [None] and the empty string are
    falsy, and [alt] is evaluated only then. *)
Definition str_or (x : option string) (alt : M string) : M string :=
  match x with
  | None => alt
  | Some s => if String.eqb s "" then alt else ret s
  end.

Definition hash_password (password : string) (salt : option string)
  : M string :=
  let* salt := str_or salt (token_hex 16) in
  let* data := lift (encode_utf8 (salt +:+ password)) in
  let hashed := Sha256.hexdigest data in
  ret (salt +:+ "$" +:+ hashed).

(** The [try] covers the split and the unpacking; its [except] clause
    catches [ValueError] only and returns [False].  The encoding and the
    comparison come after the [try], so what they raise is not caught. *)
Definition verify_password (password stored : string) : result bool :=
  match unpack2 (str_split "$" stored) with
  | Raises ValueError => Returns false
  | Raises e => Raises e
  | Returns (salt, digest) =>
      result_bind (encode_utf8 (salt +:+ password)) (fun data =>
        Returns (String.eqb (Sha256.hexdigest data) digest))
  end.

(** ** The document collaborator *)

Definition collection (name : string) (db : database) : list document :=
  default [] (db !! name).

(** An equality filter selects the documents that hold every field of the
    filter with the same value. *)
Definition matches (flt d : document) : Prop :=
  map_Forall (fun k v => d !! k = Some v) flt.

Global Instance matches_dec flt d : Decision (matches flt d).
Proof. unfold matches. apply _. Defined.

(** Modelled from the spec: [get_documents] of the [database] module,
    which is imported by [main.py] and is not part of the sources.  It
    returns up to [limit] records of the named collection that match an
    equality filter, in insertion order, and changes nothing.  [limit] is
    an integer; the spec says nothing of a limit below zero, for which
    this model returns no record, and the statements about listings are
    made for limits from zero. *)
Definition get_documents (name : string) (flt : document) (limit : Z)
  : M (list document) :=
  fun w => (Returns (take (Z.to_nat limit)
                          (filter (matches flt)
                                  (collection name (store w)))), w).

(** Modelled from the spec: [create_document] of the [database] module,
    which is imported by [main.py] and is not part of the sources.  It
    inserts the record into the named collection and returns a fresh
    unique identifier.  The store keeps the record as it is at the call:
    what the caller does to its dict afterwards does not reach the stored
    record. *)
Definition create_document (name : string) (record : document) : M value :=
  fun w =>
    (Returns (VId (next_id w)),
     mkWorld (<[name := collection name (store w) ++ [record]]> (store w))
             (N.succ (next_id w)) (urandom w) (drawn w) (clock w)).

(** [datetime.utcnow()] *)
Definition utcnow : M Z := fun w => (Returns (clock w), w).

(** ** Request and response models *)

Module SignupRequest.
Record t := Build { name : string; email : string; password : string }.
End SignupRequest.

Module LoginRequest.
Record t := Build { email : string; password : string }.
End LoginRequest.

Record AuthResponse := mkAuthResponse { user : document; token : string }.

(** ** Auth endpoints *)

(** A list is truthy when it is not empty. *)
Definition truthy {A} (l : list A) : bool :=
  match l with [] => false | _ :: _ => true end.

Definition signup (payload : SignupRequest.t) : M AuthResponse :=
  let* existing :=
    get_documents "user" {["email" := VStr (SignupRequest.email payload)]} 1 in
  if truthy existing
  then raise (HTTPException 400 "Email already registered")
  else
    let* pwd_hash := hash_password (SignupRequest.password payload) None in
    let* now := utcnow in
    let user_doc : document :=
      list_to_map
        [ ("name", VStr (SignupRequest.name payload));
          ("email", VStr (SignupRequest.email payload));
          ("password_hash", VStr pwd_hash);
          ("is_active", VBool true);
          ("created_at", VTime now) ] in
    let* _id := create_document "user" user_doc in
    let* token := token_urlsafe 24 in
    let user_doc := <["_id" := _id]> user_doc in
    let user_doc := delete "password_hash" user_doc in
    ret (mkAuthResponse user_doc token).

(** The receiver of [.split("$")]: a text is split; bytes refuse a text
    as separator with [TypeError]; every other value has no such
    attribute. *)
Definition as_str (v : value) : result string :=
  match v with
  | VStr s => Returns s
  | VBytes _ => Raises TypeError
  | _ => Raises AttributeError
  end.

Definition login (payload : LoginRequest.t) : M AuthResponse :=
  let* users :=
    get_documents "user" {["email" := VStr (LoginRequest.email payload)]} 1 in
  match users with
  | [] => raise (HTTPException 401 "Invalid credentials")
  | user :: _ =>
      let* ok :=
        lift (result_bind
                (as_str (default (VStr "") (user !! "password_hash")))
                (verify_password (LoginRequest.password payload))) in
      if negb ok
      then raise (HTTPException 401 "Invalid credentials")
      else
        let* token := token_urlsafe 24 in
        let user_sanitized : document :=
          filter (fun kv => kv.1 <> "password_hash") user in
        ret (mkAuthResponse user_sanitized token)
  end.

(** ** Predicates on text used by the statements below *)

Definition is_hex_char (c : ascii) : bool :=
  existsb (Ascii.eqb c) hex_alphabet.

Fixpoint str_forall (p : ascii -> bool) (s : string) : bool :=
  match s with
  | EmptyString => true
  | String c rest => p c && str_forall p rest
  end.

Definition is_hex (s : string) : bool := str_forall is_hex_char s.

(** All hexadecimal texts of length [n]. *)
Fixpoint hex_strings (n : nat) : list string :=
  match n with
  | O => [""]
  | S n' => c ← hex_alphabet; String c <$> hex_strings n'
  end.


(** The dict that [signup] builds from a request, the derived credential
    and the time read from the clock. *)
Definition new_user_doc (payload : SignupRequest.t) (pwd_hash : string)
    (now : Z) : document :=
  list_to_map
    [ ("name", VStr (SignupRequest.name payload));
      ("email", VStr (SignupRequest.email payload));
      ("password_hash", VStr pwd_hash);
      ("is_active", VBool true);
      ("created_at", VTime now) ].

(** The reading of "every password round-trips" as a statement about all
    passwords: deriving a credential returns one, and the password
    verifies against it. *)
Definition every_password_round_trips : Prop :=
  forall (p : string) (w : World),
    exists c w',
      hash_password p None w = (Returns c, w') /\
      verify_password p c = Returns true.

(** The reading of "a salt with the delimiter never verifies" as a
    statement about all passwords and all such salts. *)
Definition delimiter_salt_never_verifies : Prop :=
  forall (p salt : string) (w : World),
    (0 < str_count "$" salt)%nat ->
    exists c w',
      hash_password p (Some salt) w = (Returns c, w') /\
      verify_password p c = Returns false.

(** The reading of "distinct salts give distinct credentials that both
    verify" as a statement about all passwords. *)
Definition distinct_salts_distinct_credentials : Prop :=
  forall (p : string) (w1 w2 : World),
    fst (token_hex 16 w1) <> fst (token_hex 16 w2) ->
    exists c1 c2,
      fst (hash_password p None w1) = Returns c1 /\
      fst (hash_password p None w2) = Returns c2 /\
      c1 <> c2 /\
      verify_password p c1 = Returns true /\
      verify_password p c2 = Returns true.

(** ** Sample data for the worked examples *)

Definition empty_world : World :=
  mkWorld ∅ 0%N (fun i => Z.of_nat (7 * i + 3)) 0 1700000000.

Definition ann_signup : SignupRequest.t :=
  SignupRequest.Build "Ann" "a@b.com" "hunter2".

(** The world after Ann has signed up. *)
Definition ann_world : World := snd (signup ann_signup empty_world).

(** The credential stored for Ann: the first sixteen random bytes of
    [empty_world] in hex, the delimiter, and the digest. *)
Definition ann_credential : string :=
  "030a11181f262d343b424950575e656c$05ad810eb01fd13f241fe7dd1b15ff42e29eeb2b20f9c86ec39c6b86aef87d6c".

Definition ann_record : document :=
  new_user_doc ann_signup ann_credential 1700000000.

Definition ann_login : LoginRequest.t :=
  LoginRequest.Build "a@b.com" "hunter2".

Definition ann_wrong_password : LoginRequest.t :=
  LoginRequest.Build "a@b.com" "hunter3".

Definition unknown_email : LoginRequest.t :=
  LoginRequest.Build "nobody@b.com" "hunter2".

(** ** Blog endpoints *)

(** The body [{"items": posts}] of the listing. *)
Record PostList := mkPostList { items : list document }.

(** [limit] is the integer of the query string, 10 when it is not given.
    Each found record is a dict of its own, from which
    [pop("password_hash", None)] removes the key when it is there. *)
Definition list_posts (limit : Z) : M PostList :=
  let* posts :=
    get_documents "blogpost" {["status" := VStr "published"]} limit in
  let posts := map (fun p : document => delete "password_hash" p) posts in
  ret (mkPostList posts).

Definition get_post (slug : string) : M document :=
  let* docs := get_documents "blogpost" {["slug" := VStr slug]} 1 in
  match docs with
  | [] => raise (HTTPException 404 "Post not found")
  | doc :: _ => ret doc
  end.

(** ** Counting and slicing by characters *)

(** In UTF-8 the bytes 128 to 191 continue a character; every other byte
    starts one. *)
Definition is_continuation (c : ascii) : bool :=
  let b := byte_of_ascii c in Z.leb 128 b && Z.ltb b 192.

(** [len(s)]: the number of characters. *)
Fixpoint str_len (s : string) : nat :=
  match s with
  | EmptyString => O
  | String c rest =>
      if is_continuation c then str_len rest else S (str_len rest)
  end.

(** [s[:n]]: the first [n] characters, or all of [s] when it has fewer. *)
Fixpoint str_take (n : nat) (s : string) : string :=
  match s with
  | EmptyString => EmptyString
  | String c rest =>
      if is_continuation c then String c (str_take n rest)
      else match n with
           | O => EmptyString
           | S n' => String c (str_take n' rest)
           end
  end.

(** [s.replace(old, new)] for one-character [old] and [new]. *)
Fixpoint str_replace (old new : ascii) (s : string) : string :=
  match s with
  | EmptyString => EmptyString
  | String c rest =>
      String (if Ascii.eqb c old then new else c) (str_replace old new rest)
  end.

(** ** The derived fields of [create_post] *)

(** The excerpt that [create_post] stores: the content when it has at most
    180 characters, and else its first 180 characters and three dots. *)
Definition create_post_excerpt (content : string) : string :=
  if Nat.ltb 180 (str_len content)
  then str_take 180 content +:+ "..."
  else content.

(** The slug that [create_post] stores.  [str.lower] and [str.strip]
    follow the Unicode tables of the interpreter and are taken as they
    come: [lower] and [strip] stand for them. *)
Definition create_post_slug (lower strip : string -> string)
    (title : string) : string :=
  str_replace " " "-" (strip (lower title)).

(** The two on texts of ASCII characters, where [lower] maps the letters
    A to Z and [strip] removes the ASCII white space at both ends. *)
Definition ascii_lower_char (c : ascii) : ascii :=
  let b := byte_of_ascii c in
  if Z.leb 65 b && Z.leb b 90 then ascii_of_N (Z.to_N (b + 32)) else c.

Fixpoint ascii_lower (s : string) : string :=
  match s with
  | EmptyString => EmptyString
  | String c rest => String (ascii_lower_char c) (ascii_lower rest)
  end.

Definition is_ascii_space (c : ascii) : bool :=
  let b := byte_of_ascii c in
  Z.eqb b 32 || (Z.leb 9 b && Z.leb b 13) || (Z.leb 28 b && Z.leb b 31).

Fixpoint lstrip (s : string) : string :=
  match s with
  | EmptyString => EmptyString
  | String c rest => if is_ascii_space c then lstrip rest else s
  end.

Fixpoint rstrip (s : string) : string :=
  match s with
  | EmptyString => EmptyString
  | String c rest =>
      match rstrip rest with
      | EmptyString => if is_ascii_space c then EmptyString
                       else String c EmptyString
      | kept => String c kept
      end
  end.

Definition ascii_strip (s : string) : string := rstrip (lstrip s).

(** ** More sample data *)

Definition draft_post : document :=
  list_to_map [ ("title", VStr "Plans"); ("slug", VStr "plans");
                ("status", VStr "draft") ].

Definition blog_world : World :=
  mkWorld {["blogpost" := [draft_post]]} 1%N (fun _ => 0) 0 0.

(** A user record without credential, and one whose credential is not a
    text. *)
Definition bare_user : document :=
  list_to_map [ ("name", VStr "Old"); ("email", VStr "old@b.com") ].

Definition odd_user : document :=
  list_to_map [ ("name", VStr "Odd"); ("email", VStr "odd@b.com");
                ("password_hash", VBool true) ].

Definition legacy_world : World :=
  mkWorld {["user" := [bare_user; odd_user]]} 2%N (fun _ => 0) 0 0.

(** A content of 181 characters, each of two bytes. *)
Definition long_content : string :=
  string_of_list_ascii (concat (repeat (list_ascii_of_string "é") 181)).

(** The text of the one code point U+D800, a surrogate. *)
Definition lone_surrogate : string :=
  String (ascii_of_N 237) (String (ascii_of_N 160) (String (ascii_of_N 128) "")).

(** A user record whose credential is bytes. *)
Definition bytes_user : document :=
  list_to_map [ ("name", VStr "Raw"); ("email", VStr "raw@b.com");
                ("password_hash", VBytes [97; 36; 98]) ].

Definition bytes_world : World :=
  mkWorld {["user" := [bytes_user]]} 1%N (fun _ => 0) 0 0.

(** A blog with a published post that carries a stray credential, and a
    second published post. *)
Definition news_post : document :=
  list_to_map [ ("title", VStr "News"); ("slug", VStr "news");
                ("status", VStr "published");
                ("password_hash", VStr "stray") ].

Definition more_post : document :=
  list_to_map [ ("title", VStr "More"); ("slug", VStr "more");
                ("status", VStr "published") ].

Definition shop_world : World :=
  mkWorld {["blogpost" := [draft_post; news_post; more_post]]} 3%N
          (fun _ => 0) 0 0.

(** * Properties *)

(** ** The library functions agree with the reference outputs *)

Example primes_count : length Sha256.primes = 64%nat /\ last Sha256.primes = Some 311.
Proof. split; reflexivity. Qed.

Example K_ends :
  head Sha256.K = Some 0x428a2f98 /\ last Sha256.K = Some 0xc67178f2.
Proof. split; reflexivity. Qed.

Example H0_ends :
  Sha256.ha Sha256.H0 = 0x6a09e667 /\ Sha256.hh Sha256.H0 = 0x5be0cd19.
Proof. split; reflexivity. Qed.

Example sha256_hex_empty :
  sha256_hex "" =
  "e3b0c44298fc1c149afbf4c8996fb92427ae41e4649b934ca495991b7852b855".
Proof. vm_compute. reflexivity. Qed.

Example sha256_hex_abc :
  sha256_hex "abc" =
  "ba7816bf8f01cfea414140de5dae2223b00361a396177a9cb410ff61f20015ad".
Proof. vm_compute. reflexivity. Qed.

Example sha256_hex_two_blocks :
  sha256_hex "abcdbcdecdefdefgefghfghighijhijkijkljklmklmnlmnomnopnopq" =
  "248d6a61d20638b8e5c026930c3e6039a33ce45964ff2167f6ecedd419db06c1".
Proof. vm_compute. reflexivity. Qed.

Example sha256_hex_55 :
  sha256_hex "aaaaaaaaaaaaaaaaaaaaaaaaaaaaaaaaaaaaaaaaaaaaaaaaaaaaaaa" =
  "9f4390f8d30c2dd92ec9f095b65e2b9ae9b0a925a5258e241c9f1e910f734318".
Proof. vm_compute. reflexivity. Qed.

Example sha256_hex_56 :
  sha256_hex "aaaaaaaaaaaaaaaaaaaaaaaaaaaaaaaaaaaaaaaaaaaaaaaaaaaaaaaa" =
  "b35439a4ac6f0948b6d6f9e3c6af0f5f590ce20f1bde7090ef7970686ec6738a".
Proof. vm_compute. reflexivity. Qed.

Example str_split_empty : str_split "$" "" = [""].
Proof. reflexivity. Qed.

Example str_split_only_seps : str_split "$" "$$" = [""; ""; ""].
Proof. reflexivity. Qed.

Example str_split_trailing : str_split "$" "a$" = ["a"; ""].
Proof. reflexivity. Qed.

Example str_split_plain :
  str_split "$" "not-a-valid-format" = ["not-a-valid-format"].
Proof. reflexivity. Qed.

Example b64_urlsafe_sample :
  string_of_list_ascii (b64_urlsafe [251; 255; 254; 1; 2]) = "-__-AQI".
Proof. reflexivity. Qed.

(** ** Splitting and counting *)

Section Split.
Variable sep : ascii.

Lemma str_split_length (s : string) :
  length (str_split sep s) = S (str_count sep s).
Proof.
  induction s as [|c s IH]; simpl; [reflexivity|].
  destruct (Ascii.eqb c sep); simpl; [now rewrite IH|].
  destruct (str_split sep s) as [|part parts]; simpl in *; congruence.
Qed.

Lemma str_count_app (a b : string) :
  str_count sep (a +:+ b) = (str_count sep a + str_count sep b)%nat.
Proof.
  induction a as [|c a IH]; simpl; [reflexivity|].
  rewrite IH. now destruct (Ascii.eqb c sep).
Qed.

Lemma str_count_cons_sep (s : string) :
  str_count sep (String sep s) = S (str_count sep s).
Proof. simpl. now rewrite Ascii.eqb_refl. Qed.

Lemma str_split_no_sep (s : string) :
  str_count sep s = O -> str_split sep s = [s].
Proof.
  induction s as [|c s IH]; simpl; [reflexivity|].
  destruct (Ascii.eqb c sep); [discriminate|].
  intros H. now rewrite (IH H).
Qed.

Lemma str_split_app_sep (a b : string) :
  str_count sep a = O ->
  str_split sep (a +:+ String sep b) = a :: str_split sep b.
Proof.
  induction a as [|c a IH]; simpl.
  - intros _. now rewrite Ascii.eqb_refl.
  - destruct (Ascii.eqb c sep); [discriminate|].
    intros H. now rewrite (IH H).
Qed.

(** A text without the separator, the separator, and another such text
    split back into exactly the two texts. *)
Lemma str_split_two (a b : string) :
  str_count sep a = O -> str_count sep b = O ->
  str_split sep (a +:+ String sep b) = [a; b].
Proof.
  intros Ha Hb. rewrite (str_split_app_sep _ _ Ha).
  now rewrite (str_split_no_sep _ Hb).
Qed.
End Split.

(** ** Hexadecimal text *)

Lemma hex_digit_is_hex (n : Z) : is_hex_char (hex_digit n) = true.
Proof.
  unfold is_hex_char, hex_digit. apply existsb_exists.
  exists (nth (Z.to_nat (n mod 16)) hex_alphabet "0"%char). split.
  - apply nth_In. change (length hex_alphabet) with 16%nat.
    pose proof (Z.mod_pos_bound n 16 eq_refl). lia.
  - apply Ascii.eqb_refl.
Qed.

Lemma hexlify_is_hex (bs : list Z) : is_hex (hexlify bs) = true.
Proof.
  unfold is_hex, hexlify.
  induction bs as [|b bs IH]; [reflexivity|].
  cbn [flat_map hex_of_byte app string_of_list_ascii str_forall].
  now rewrite !hex_digit_is_hex, IH.
Qed.

Lemma hexlify_length (bs : list Z) :
  String.length (hexlify bs) = (2 * length bs)%nat.
Proof.
  unfold hexlify.
  induction bs as [|b bs IH]; [reflexivity|].
  cbn [flat_map hex_of_byte app string_of_list_ascii String.length length].
  rewrite IH. lia.
Qed.

Lemma str_forall_count (p : ascii -> bool) (c : ascii) (s : string) :
  p c = false -> str_forall p s = true -> str_count c s = O.
Proof.
  intros Hc. induction s as [|c' s IH]; simpl; [reflexivity|].
  intros [Hp Hs]%andb_prop.
  destruct (Ascii.eqb_spec c' c) as [->|_]; [congruence|auto].
Qed.

(** The delimiter is not a hexadecimal digit, so hexadecimal text never
    holds it. *)
Lemma is_hex_no_dollar (s : string) :
  is_hex s = true -> str_count "$" s = O.
Proof. apply str_forall_count. reflexivity. Qed.

Lemma be_bytes_length (n : nat) (x : Z) : length (Sha256.be_bytes n x) = n.
Proof.
  revert x. induction n as [|n IH]; intros x; simpl; [reflexivity|].
  rewrite length_app, IH. simpl. lia.
Qed.

Lemma digest_length (msg : list Z) : length (Sha256.digest msg) = 32%nat.
Proof.
  unfold Sha256.digest, Sha256.state_words.
  cbn [flat_map]. rewrite !length_app, !be_bytes_length. reflexivity.
Qed.

Lemma sha256_hex_is_hex (s : string) : is_hex (sha256_hex s) = true.
Proof. apply hexlify_is_hex. Qed.

Lemma sha256_hex_length (s : string) : String.length (sha256_hex s) = 64%nat.
Proof.
  unfold sha256_hex, Sha256.hexdigest.
  rewrite hexlify_length, digest_length. reflexivity.
Qed.

(** ** Surrogates *)

Lemma has_surrogate_cons (c : ascii) (s : string) :
  Z.eqb (byte_of_ascii c) 237 = false ->
  has_surrogate (String c s) = has_surrogate s.
Proof.
  intros Hc. destruct s as [|d s]; [reflexivity|].
  cbn [has_surrogate]. rewrite Hc. reflexivity.
Qed.

Lemma is_hex_char_not_237 (c : ascii) :
  is_hex_char c = true -> Z.eqb (byte_of_ascii c) 237 = false.
Proof.
  unfold is_hex_char. intros (c' & Hin & <-%Ascii.eqb_eq)%existsb_exists.
  unfold hex_alphabet in Hin. cbn in Hin.
  repeat (destruct Hin as [<-|Hin]; [reflexivity|]). contradiction.
Qed.

(** Hexadecimal text before a text adds no surrogate to it. *)
Lemma has_surrogate_hex_app (a b : string) :
  is_hex a = true -> has_surrogate (a +:+ b) = has_surrogate b.
Proof.
  unfold is_hex. induction a as [|c a IH]; [reflexivity|].
  cbn [str_forall]. intros [Hc Ha]%andb_prop.
  change (String c a +:+ b) with (String c (a +:+ b)).
  rewrite has_surrogate_cons by now apply is_hex_char_not_237.
  auto.
Qed.

Lemma is_hex_no_surrogate (s : string) :
  is_hex s = true -> has_surrogate s = false.
Proof.
  intros H. pose proof (has_surrogate_hex_app s "" H) as E.
  assert (s +:+ "" = s) as Hs
    by (clear; induction s as [|c s IH]; [reflexivity|];
        change (String c s +:+ "") with (String c (s +:+ "")); congruence).
  now rewrite Hs in E.
Qed.

Lemma encode_utf8_plain (s : string) :
  has_surrogate s = false -> encode_utf8 s = Returns (bytes_of_string s).
Proof. unfold encode_utf8. now intros ->. Qed.

Lemma encode_utf8_surrogate (s : string) :
  has_surrogate s = true -> encode_utf8 s = Raises UnicodeEncodeError.
Proof. unfold encode_utf8. now intros ->. Qed.

Example lone_surrogate_raises :
  encode_utf8 lone_surrogate = Raises UnicodeEncodeError.
Proof. reflexivity. Qed.

Example encode_utf8_accent : encode_utf8 "é" = Returns [195; 169].
Proof. reflexivity. Qed.

(** The surrogates are U+D800 to U+DFFF: U+D7FF (237, 159, 191) and
    U+E000 (238, 128, 128), next to them, are not, and U+DFFF
    (237, 191, 191) is. *)
Example has_surrogate_bounds :
  has_surrogate
    (String (ascii_of_N 237) (String (ascii_of_N 159) (String (ascii_of_N 191) "")))
  = false /\
  has_surrogate
    (String (ascii_of_N 238) (String (ascii_of_N 128) (String (ascii_of_N 128) "")))
  = false /\
  has_surrogate
    (String (ascii_of_N 237) (String (ascii_of_N 191) (String (ascii_of_N 191) "")))
  = true /\
  has_surrogate ("abc" +:+ lone_surrogate +:+ "def") = true /\
  has_surrogate "héllo, wörld" = false.
Proof. repeat split; reflexivity. Qed.

(** ** The credential helpers *)

(** The digest of a text that is not given is never unfolded below. *)
Opaque Sha256.hexdigest.

Lemma token_hex_run (n : nat) (w : World) :
  exists s w',
    token_hex n w = (Returns s, w') /\
    is_hex s = true /\ String.length s = (2 * n)%nat /\
    store w' = store w /\ drawn w' = (drawn w + n)%nat.
Proof.
  unfold token_hex, bind, token_bytes, ret. do 2 eexists.
  split; [reflexivity|]. split; [apply hexlify_is_hex|].
  split; [|split; reflexivity].
  now rewrite hexlify_length, length_map, length_seq.
Qed.

(** What [hash_password] does once the salt is settled: it raises when
    the salt followed by the password holds a surrogate, and else returns
    the salt, the delimiter and the digest. *)
Lemma hash_password_run (p : string) (salt : option string)
    (s : string) (w w1 : World) :
  str_or salt (token_hex 16) w = (Returns s, w1) ->
  hash_password p salt w =
  if has_surrogate (s +:+ p)
  then (Raises UnicodeEncodeError, w1)
  else (Returns (s +:+ "$" +:+ sha256_hex (s +:+ p)), w1).
Proof.
  intros Hs. unfold hash_password, bind, lift, encode_utf8. rewrite Hs.
  destruct (has_surrogate (s +:+ p)); reflexivity.
Qed.

(** Without a salt, the salt is the next sixteen random bytes in hex. *)
Lemma hash_password_fresh (p s : string) (w w' : World) :
  token_hex 16 w = (Returns s, w') ->
  has_surrogate (s +:+ p) = false ->
  hash_password p None w = (Returns (s +:+ "$" +:+ sha256_hex (s +:+ p)), w').
Proof.
  intros H Hp. rewrite (hash_password_run p None s w w') by exact H.
  now rewrite Hp.
Qed.

(** A given salt that is not empty is used as it is, and no randomness is
    drawn. *)
Lemma hash_password_given (p s : string) (w : World) :
  s <> "" ->
  has_surrogate (s +:+ p) = false ->
  hash_password p (Some s) w =
  (Returns (s +:+ "$" +:+ sha256_hex (s +:+ p)), w).
Proof.
  intros Hs Hp. rewrite (hash_password_run p (Some s) s w w).
  - now rewrite Hp.
  - unfold str_or. destruct (String.eqb_spec s "") as [E|_];
      [contradiction|reflexivity].
Qed.

Lemma verify_password_unpack (p stored : string) :
  verify_password p stored =
  match str_split "$" stored with
  | [salt; digest] =>
      if has_surrogate (salt +:+ p)
      then Raises UnicodeEncodeError
      else Returns (String.eqb (sha256_hex (salt +:+ p)) digest)
  | _ => Returns false
  end.
Proof.
  unfold verify_password.
  destruct (str_split "$" stored) as [|a [|b [|c l]]]; try reflexivity.
  cbn [unpack2]. unfold encode_utf8.
  destruct (has_surrogate (a +:+ p)); reflexivity.
Qed.

(** Verification of a well-formed credential compares the two digests. *)
Lemma verify_password_credential (p s d : string) :
  str_count "$" s = O -> str_count "$" d = O ->
  has_surrogate (s +:+ p) = false ->
  verify_password p (s +:+ "$" +:+ d) =
  Returns (String.eqb (sha256_hex (s +:+ p)) d).
Proof.
  intros Hs Hd Hp. rewrite verify_password_unpack.
  change (s +:+ "$" +:+ d) with (s +:+ String "$" d).
  rewrite (str_split_two _ _ _ Hs Hd). now rewrite Hp.
Qed.

(** Verification returns a boolean or raises [UnicodeEncodeError]. *)
Lemma verify_password_cases (p stored : string) :
  (exists b, verify_password p stored = Returns b) \/
  verify_password p stored = Raises UnicodeEncodeError.
Proof.
  rewrite verify_password_unpack.
  destruct (str_split "$" stored) as [|a [|b [|c l]]]; eauto.
  destruct (has_surrogate (a +:+ p)); eauto.
Qed.

(** What a call without salt does for a password without surrogate: it
    draws sixteen random bytes, and the credential it returns splits into
    their hexadecimal text and the digest, which are compared equal by
    verification. *)
Lemma hash_password_fresh_run (p : string) (w : World) :
  has_surrogate p = false ->
  exists salt c w',
    token_hex 16 w = (Returns salt, w') /\
    hash_password p None w = (Returns c, w') /\
    is_hex salt = true /\
    str_split "$" c = [salt; sha256_hex (salt +:+ p)] /\
    verify_password p c = Returns true /\
    String.length salt = 32%nat /\ drawn w' = (drawn w + 16)%nat.
Proof.
  intros Hp.
  destruct (token_hex_run 16 w) as (salt & w' & Hrun & Hhex & Hlen & _ & Hdr).
  exists salt, (salt +:+ "$" +:+ sha256_hex (salt +:+ p)), w'.
  pose proof (is_hex_no_dollar _ Hhex) as Hs.
  pose proof (is_hex_no_dollar _ (sha256_hex_is_hex (salt +:+ p))) as Hd.
  assert (has_surrogate (salt +:+ p) = false) as Hsp
    by now rewrite has_surrogate_hex_app.
  repeat split; try assumption.
  - now apply hash_password_fresh.
  - now apply (str_split_two "$").
  - rewrite (verify_password_credential _ _ _ Hs Hd Hsp).
    now rewrite String.eqb_refl.
Qed.

(** A call without salt for a password with a surrogate draws the salt and
    then raises. *)
Lemma hash_password_fresh_raise (p : string) (w : World) :
  has_surrogate p = true ->
  exists salt w',
    token_hex 16 w = (Returns salt, w') /\
    hash_password p None w = (Raises UnicodeEncodeError, w').
Proof.
  intros Hp.
  destruct (token_hex_run 16 w) as (salt & w' & Hrun & Hhex & _).
  exists salt, w'. split; [exact Hrun|].
  rewrite (hash_password_run p None salt w w') by exact Hrun.
  now rewrite has_surrogate_hex_app, Hp.
Qed.

(** C1, as stated: every password round-trips.  This fails on the
    password that is the one surrogate U+D800: deriving its credential
    draws the salt and raises [UnicodeEncodeError]. *)
Lemma surrogate_password_no_round_trip :
  fst (hash_password lone_surrogate None empty_world)
  = Raises UnicodeEncodeError /\
  ~ every_password_round_trips.
Proof.
  assert (fst (hash_password lone_surrogate None empty_world)
          = Raises UnicodeEncodeError) as Hraise
    by (vm_compute; reflexivity).
  split; [exact Hraise|].
  intros Hclaim.
  destruct (Hclaim lone_surrogate empty_world) as (c & w' & Hc & _).
  rewrite Hc in Hraise. discriminate Hraise.
Qed.

(** C1, amended. For every password [p] that holds no surrogate and every
    world, [hash_password p] with no salt given returns a credential [c];
    splitting [c] on the delimiter gives back the random hexadecimal salt
    that was drawn and the SHA-256 digest of the salt followed by [p]; and
    [verify_password p c] returns true. *)
Theorem verify_password_hash_password (p : string) (w : World) :
  has_surrogate p = false ->
  exists salt c w',
    token_hex 16 w = (Returns salt, w') /\
    hash_password p None w = (Returns c, w') /\
    is_hex salt = true /\
    str_split "$" c = [salt; sha256_hex (salt +:+ p)] /\
    verify_password p c = Returns true.
Proof.
  intros Hp.
  destruct (hash_password_fresh_run p w Hp)
    as (salt & c & w' & Hrun & Hc & Hhex & Hsplit & Hv & _).
  exists salt, c, w'. repeat split; assumption.
Qed.

Lemma verify_password_hash_password_witness :
  exists salt c w',
    token_hex 16 empty_world = (Returns salt, w') /\
    hash_password "hunter2" None empty_world = (Returns c, w') /\
    is_hex salt = true /\
    str_split "$" c = [salt; sha256_hex (salt +:+ "hunter2")] /\
    verify_password "hunter2" c = Returns true.
Proof.
  apply (verify_password_hash_password "hunter2" empty_world).
  reflexivity.
Defined.

(** The three shapes of a stored string that does not split into two
    parts: empty, without delimiter, with two delimiters or more. *)
Lemma malformed_shapes (s : string) :
  s = "" \/ str_count "$" s = O \/ (2 <= str_count "$" s)%nat ->
  length (str_split "$" s) <> 2%nat.
Proof.
  rewrite str_split_length. intros [->|[H|H]]; simpl; lia.
Qed.

Lemma split_two_parts_iff (s : string) :
  length (str_split "$" s) = 2%nat <-> str_count "$" s = 1%nat.
Proof. rewrite str_split_length. lia. Qed.

Lemma verify_password_bad_split (p s : string) :
  length (str_split "$" s) <> 2%nat ->
  verify_password p s = Returns false.
Proof.
  intros H. rewrite verify_password_unpack.
  destruct (str_split "$" s) as [|a [|b [|c l]]]; try reflexivity.
  now contradiction H.
Qed.

(** C2. For every password [p] and every stored string [s] whose split on
    the delimiter does not have exactly two parts, [verify_password p s]
    returns false; it does not raise. *)
Theorem verify_password_malformed (p s : string) :
  length (str_split "$" s) <> 2%nat ->
  verify_password p s = Returns false.
Proof. apply verify_password_bad_split. Qed.

Lemma verify_password_malformed_witness :
  verify_password "anything" "" = Returns false.
Proof.
  apply (verify_password_malformed "anything" "").
  simpl. lia.
Defined.

Example verify_password_not_a_valid_format :
  verify_password "anything" "not-a-valid-format" = Returns false.
Proof. reflexivity. Qed.

Example verify_password_three_parts :
  verify_password "anything" "a$b$c" = Returns false.
Proof. reflexivity. Qed.

(** A malformed stored string is refused before the password is encoded:
    also a password with a surrogate gets false, and no exception. *)
Example verify_password_malformed_surrogate :
  verify_password lone_surrogate "not-a-valid-format" = Returns false.
Proof. reflexivity. Qed.

(** A well-formed stored string lets the password be encoded, which
    raises on a surrogate. *)
Example verify_password_surrogate_raises :
  verify_password lone_surrogate ann_credential = Raises UnicodeEncodeError.
Proof. vm_compute. reflexivity. Qed.

(** C9, as stated: a salt with the delimiter never verifies.  This fails
    on the password that is the one surrogate U+D800: with the salt
    ["a$b"], deriving the credential raises [UnicodeEncodeError]. *)
Lemma surrogate_password_delimiter_salt :
  fst (hash_password lone_surrogate (Some "a$b") empty_world)
  = Raises UnicodeEncodeError /\
  ~ delimiter_salt_never_verifies.
Proof.
  assert (fst (hash_password lone_surrogate (Some "a$b") empty_world)
          = Raises UnicodeEncodeError) as Hraise
    by (vm_compute; reflexivity).
  split; [exact Hraise|].
  intros Hclaim.
  destruct (Hclaim lone_surrogate "a$b" empty_world) as (c & w' & Hc & _);
    [cbn; lia|].
  rewrite Hc in Hraise. discriminate Hraise.
Qed.

(** C9, amended. For every password [p] and every given salt that holds
    the delimiter, when the salt followed by [p] holds no surrogate,
    [hash_password p salt] returns a credential on which
    [verify_password p] returns false. *)
Theorem verify_password_salt_with_delimiter (p salt : string) (w : World) :
  (0 < str_count "$" salt)%nat ->
  has_surrogate (salt +:+ p) = false ->
  exists c,
    hash_password p (Some salt) w = (Returns c, w) /\
    (3 <= length (str_split "$" c))%nat /\
    verify_password p c = Returns false.
Proof.
  intros Hsalt Hp.
  assert (salt <> "") as Hne by (intros ->; simpl in Hsalt; lia).
  exists (salt +:+ "$" +:+ sha256_hex (salt +:+ p)).
  assert (3 <= length (str_split "$"
                 (salt +:+ "$" +:+ sha256_hex (salt +:+ p))))%nat as Hlen.
  { rewrite str_split_length, str_count_app.
    change ("$" +:+ sha256_hex (salt +:+ p))
      with (String "$" (sha256_hex (salt +:+ p))).
    rewrite str_count_cons_sep. lia. }
  split; [now apply hash_password_given|]. split; [exact Hlen|].
  apply verify_password_bad_split. lia.
Qed.

Lemma verify_password_salt_with_delimiter_witness :
  exists c,
    hash_password "hunter2" (Some "a$b") (mkWorld ∅ 0%N (fun _ => 0) 0 0)
    = (Returns c, mkWorld ∅ 0%N (fun _ => 0) 0 0) /\
    (3 <= length (str_split "$" c))%nat /\
    verify_password "hunter2" c = Returns false.
Proof.
  apply (verify_password_salt_with_delimiter "hunter2" "a$b").
  - simpl. lia.
  - reflexivity.
Defined.

(** C10. For every password [p], [hash_password p ""] behaves as
    [hash_password p] with no salt.  In every outcome it draws sixteen
    random bytes, whose hexadecimal text, thirty-two characters long and
    so not empty, is the salt: every credential it returns splits into
    that salt and the digest, and it returns one whenever [p] holds no
    surrogate. *)
Theorem hash_password_empty_salt (p : string) (w : World) :
  hash_password p (Some "") w = hash_password p None w /\
  exists salt w',
    token_hex 16 w = (Returns salt, w') /\
    snd (hash_password p (Some "") w) = w' /\
    drawn w' = (drawn w + 16)%nat /\
    String.length salt = 32%nat /\ salt <> "" /\
    (forall c, fst (hash_password p (Some "") w) = Returns c ->
               str_split "$" c = [salt; sha256_hex (salt +:+ p)]) /\
    (has_surrogate p = false ->
     exists c, fst (hash_password p (Some "") w) = Returns c).
Proof.
  split; [reflexivity|].
  destruct (token_hex_run 16 w) as (salt & w' & Hrun & Hhex & Hlen & _ & Hdr).
  exists salt, w'.
  assert (hash_password p (Some "") w =
          if has_surrogate (salt +:+ p)
          then (Raises UnicodeEncodeError, w')
          else (Returns (salt +:+ "$" +:+ sha256_hex (salt +:+ p)), w'))
    as Hhp by (apply hash_password_run; exact Hrun).
  rewrite Hhp, (has_surrogate_hex_app _ _ Hhex).
  split; [exact Hrun|].
  split; [now destruct (has_surrogate p)|].
  split; [exact Hdr|]. split; [exact Hlen|].
  split; [intros ->; simpl in Hlen; lia|].
  split.
  - destruct (has_surrogate p); cbn [fst]; [discriminate|].
    intros c [= <-]. apply (str_split_two "$").
    + now apply is_hex_no_dollar.
    + apply is_hex_no_dollar, sha256_hex_is_hex.
  - intros ->. eexists. reflexivity.
Qed.

Lemma hash_password_empty_salt_witness :
  exists c,
    fst (hash_password "hunter2" (Some "") empty_world) = Returns c /\
    str_split "$" c =
      ["030a11181f262d343b424950575e656c";
       sha256_hex ("030a11181f262d343b424950575e656c" +:+ "hunter2")].
Proof.
  destruct (hash_password_empty_salt "hunter2" empty_world)
    as (_ & salt & w' & Hrun & _ & _ & _ & _ & Hsplit & Hret).
  destruct (Hret eq_refl) as [c Hc].
  exists c. split; [exact Hc|].
  rewrite (Hsplit c Hc).
  assert (salt = "030a11181f262d343b424950575e656c") as ->
    by (vm_compute in Hrun; congruence).
  reflexivity.
Defined.

(** A credential that a call without salt has returned: the password
    holds no surrogate, the salt is the hexadecimal text that was drawn,
    and the password verifies. *)
Lemma hash_password_returned (p : string) (w w1 : World) (c : string) :
  hash_password p None w = (Returns c, w1) ->
  has_surrogate p = false /\
  exists salt,
    token_hex 16 w = (Returns salt, w1) /\
    is_hex salt = true /\ String.length salt = 32%nat /\
    c = salt +:+ "$" +:+ sha256_hex (salt +:+ p) /\
    verify_password p c = Returns true.
Proof.
  intros Hc. destruct (has_surrogate p) eqn:Hp.
  - destruct (hash_password_fresh_raise p w Hp) as (salt & w' & _ & Hr).
    rewrite Hr in Hc. discriminate Hc.
  - split; [reflexivity|].
    destruct (token_hex_run 16 w) as (salt & w' & Hrun & Hhex & Hlen & _).
    assert (has_surrogate (salt +:+ p) = false) as Hsp
      by now rewrite has_surrogate_hex_app.
    rewrite (hash_password_fresh p salt w w' Hrun Hsp) in Hc.
    injection Hc as <- <-.
    exists salt. repeat split; try assumption.
    rewrite verify_password_credential;
      [|now apply is_hex_no_dollar
       |apply is_hex_no_dollar, sha256_hex_is_hex|assumption].
    now rewrite String.eqb_refl.
Qed.

(** ** Two salts, and two passwords *)

(** C7, as stated: two calls that draw distinct salts return distinct
    credentials that both verify.  This fails on the password that is the
    one surrogate U+D800: both calls draw their salt and raise
    [UnicodeEncodeError]. *)
Lemma surrogate_password_two_salts :
  fst (token_hex 16 empty_world) <> fst (token_hex 16 blog_world) /\
  fst (hash_password lone_surrogate None empty_world)
  = Raises UnicodeEncodeError /\
  fst (hash_password lone_surrogate None blog_world)
  = Raises UnicodeEncodeError /\
  ~ distinct_salts_distinct_credentials.
Proof.
  assert (fst (token_hex 16 empty_world) <> fst (token_hex 16 blog_world))
    as Hsalts by (vm_compute; discriminate).
  assert (fst (hash_password lone_surrogate None empty_world)
          = Raises UnicodeEncodeError) as Hraise
    by (vm_compute; reflexivity).
  split; [exact Hsalts|]. split; [exact Hraise|].
  split; [vm_compute; reflexivity|].
  intros Hclaim.
  destruct (Hclaim lone_surrogate empty_world blog_world Hsalts)
    as (c1 & c2 & Hc1 & _).
  rewrite Hc1 in Hraise. discriminate Hraise.
Qed.

(** C7, amended. For every password [p] that holds no surrogate, two
    calls of [hash_password p] that draw distinct salts return distinct
    credentials, whose parts before the delimiter are the two salts, and
    [verify_password p] returns true on both. *)
Theorem hash_password_salted (p s1 s2 : string) (w1 w1' w2 w2' : World) :
  has_surrogate p = false ->
  token_hex 16 w1 = (Returns s1, w1') ->
  token_hex 16 w2 = (Returns s2, w2') ->
  s1 <> s2 ->
  exists c1 c2,
    hash_password p None w1 = (Returns c1, w1') /\
    hash_password p None w2 = (Returns c2, w2') /\
    c1 <> c2 /\
    head (str_split "$" c1) = Some s1 /\
    head (str_split "$" c2) = Some s2 /\
    verify_password p c1 = Returns true /\
    verify_password p c2 = Returns true.
Proof.
  intros Hp H1 H2 Hne.
  destruct (hash_password_fresh_run p w1 Hp)
    as (t1 & c1 & v1 & Ht1 & Hc1 & _ & Hsp1 & Hv1 & _).
  destruct (hash_password_fresh_run p w2 Hp)
    as (t2 & c2 & v2 & Ht2 & Hc2 & _ & Hsp2 & Hv2 & _).
  rewrite H1 in Ht1. injection Ht1 as <- <-.
  rewrite H2 in Ht2. injection Ht2 as <- <-.
  exists c1, c2. repeat split; try assumption.
  - intros E. rewrite E, Hsp2 in Hsp1. congruence.
  - now rewrite Hsp1.
  - now rewrite Hsp2.
Qed.

Lemma hash_password_salted_witness :
  exists c1 c2,
    hash_password "hunter2" None (mkWorld ∅ 0%N (fun _ => 0) 0 0)
    = (Returns c1, mkWorld ∅ 0%N (fun _ => 0) 16 0) /\
    hash_password "hunter2" None (mkWorld ∅ 0%N (fun _ => 1) 0 0)
    = (Returns c2, mkWorld ∅ 0%N (fun _ => 1) 16 0) /\
    c1 <> c2 /\
    head (str_split "$" c1) = Some "00000000000000000000000000000000" /\
    head (str_split "$" c2) = Some "01010101010101010101010101010101" /\
    verify_password "hunter2" c1 = Returns true /\
    verify_password "hunter2" c2 = Returns true.
Proof.
  apply (hash_password_salted "hunter2").
  - reflexivity.
  - reflexivity.
  - reflexivity.
  - discriminate.
Defined.

(** Among more inputs than outputs, two inputs share an output. *)
Lemma collision_or_NoDup {A B} `{EqDecision B} (f : A -> B) (l : list A) :
  NoDup l ->
  (exists x y, x ∈ l /\ y ∈ l /\ x <> y /\ f x = f y) \/ NoDup (f <$> l).
Proof.
  induction 1 as [|x l Hx Hl IH]; [right; constructor|].
  destruct IH as [(a & b & Ha & Hb & Hab & E)|IH].
  { left. exists a, b. repeat split; try assumption; now constructor. }
  destruct (decide (f x ∈ f <$> l)) as [Hin|Hout].
  - left. apply list_elem_of_fmap in Hin as (y & E & Hy).
    exists x, y. repeat split; try assumption.
    + constructor.
    + now constructor.
    + intros ->. contradiction.
  - right. rewrite fmap_cons. now constructor.
Qed.

Lemma pigeonhole_collision {A B} `{EqDecision B}
    (f : A -> B) (l : list A) (k : list B) :
  NoDup l -> (forall x, x ∈ l -> f x ∈ k) -> (length k < length l)%nat ->
  exists x y, x ∈ l /\ y ∈ l /\ x <> y /\ f x = f y.
Proof.
  intros Hl Hk Hlen.
  destruct (collision_or_NoDup f l Hl) as [?|Hnd]; [assumption|].
  exfalso.
  assert (f <$> l ⊆+ k) as Hsub.
  { apply NoDup_submseteq; [assumption|].
    intros y (x & -> & Hx)%list_elem_of_fmap. now apply Hk. }
  apply submseteq_length in Hsub. rewrite length_fmap in Hsub. lia.
Qed.

Lemma hex_strings_length_S (n : nat) :
  length (hex_strings (S n)) = (16 * length (hex_strings n))%nat.
Proof.
  cbn [hex_strings]. unfold hex_alphabet.
  cbn [list_ascii_of_string mbind list_bind].
  rewrite !length_app, !length_fmap. simpl. lia.
Qed.

Lemma hex_strings_length_pos (n : nat) : (0 < length (hex_strings n))%nat.
Proof.
  induction n as [|n IH]; [simpl; lia|]. rewrite hex_strings_length_S. lia.
Qed.

Lemma hex_strings_NoDup (n : nat) : NoDup (hex_strings n).
Proof.
  induction n as [|n IH]; cbn [hex_strings].
  - apply NoDup_singleton.
  - apply NoDup_bind.
    + intros c1 c2 s _ _ (s1 & -> & _)%list_elem_of_fmap
                         (s2 & E & _)%list_elem_of_fmap.
      congruence.
    + intros c _. apply NoDup_fmap_2; [|assumption]. intros a b. congruence.
    + unfold hex_alphabet. simpl. apply (bool_decide_unpack _). reflexivity.
Qed.

Lemma is_hex_char_elem (c : ascii) :
  is_hex_char c = true -> c ∈ hex_alphabet.
Proof.
  unfold is_hex_char. intros (c' & Hin & <-%Ascii.eqb_eq)%existsb_exists.
  now apply list_elem_of_In.
Qed.

Lemma is_hex_elem (s : string) :
  is_hex s = true -> s ∈ hex_strings (String.length s).
Proof.
  unfold is_hex.
  induction s as [|c s IH]; cbn [str_forall String.length hex_strings].
  - intros _. apply list_elem_of_singleton. reflexivity.
  - intros [Hc Hs]%andb_prop. apply list_elem_of_bind.
    exists c. split; [|now apply is_hex_char_elem].
    apply list_elem_of_fmap_2. auto.
Qed.

Lemma hex_strings_is_hex (n : nat) (s : string) :
  s ∈ hex_strings n -> is_hex s = true.
Proof.
  revert s. induction n as [|n IH]; intros s; cbn [hex_strings].
  - intros ->%list_elem_of_singleton. reflexivity.
  - intros (c & (t & -> & Ht)%list_elem_of_fmap & Hc)%list_elem_of_bind.
    unfold is_hex. cbn [str_forall]. apply andb_true_intro. split.
    + unfold is_hex_char. apply existsb_exists. exists c.
      split; [now apply list_elem_of_In|apply Ascii.eqb_refl].
    + now apply IH.
Qed.

(** SHA-256 is not injective after any prefix: there are more texts of 65
    hexadecimal digits than digests. *)
Lemma sha256_hex_collision (prefix : string) :
  exists p q,
    p <> q /\ is_hex p = true /\ is_hex q = true /\
    sha256_hex (prefix +:+ p) = sha256_hex (prefix +:+ q).
Proof.
  destruct (pigeonhole_collision (fun p => sha256_hex (prefix +:+ p))
              (hex_strings 65) (hex_strings 64))
    as (p & q & Hp & Hq & Hne & E).
  - apply hex_strings_NoDup.
  - intros p _.
    pose proof (is_hex_elem _ (sha256_hex_is_hex (prefix +:+ p))) as H.
    now rewrite sha256_hex_length in H.
  - rewrite (hex_strings_length_S 64).
    pose proof (hex_strings_length_pos 64). lia.
  - exists p, q. repeat split; try assumption;
      eapply hex_strings_is_hex; eassumption.
Qed.

(** So two distinct passwords without surrogate exist of which one
    verifies against the credential of the other, though the proof names
    neither. *)
Lemma wrong_password_may_verify (w : World) :
  exists p q c w',
    p <> q /\ has_surrogate p = false /\ has_surrogate q = false /\
    hash_password q None w = (Returns c, w') /\
    verify_password p c = Returns true.
Proof.
  destruct (token_hex_run 16 w) as (salt & w' & Hrun & Hhex & _).
  destruct (sha256_hex_collision salt) as (p & q & Hne & Hp & Hq & E).
  apply is_hex_no_surrogate in Hp, Hq.
  exists p, q, (salt +:+ "$" +:+ sha256_hex (salt +:+ q)), w'.
  repeat split; try assumption.
  - apply hash_password_fresh; [exact Hrun|].
    now rewrite has_surrogate_hex_app.
  - rewrite verify_password_credential;
      [|now apply is_hex_no_dollar
       |apply is_hex_no_dollar, sha256_hex_is_hex
       |now rewrite has_surrogate_hex_app].
    now rewrite E, String.eqb_refl.
Qed.




Example verify_password_wrong_password :
  verify_password "hunter3" ann_credential = Returns false.
Proof. vm_compute. reflexivity. Qed.

Example verify_password_right_password :
  verify_password "hunter2" ann_credential = Returns true.
Proof. vm_compute. reflexivity. Qed.

(** ** Signup and login *)

Lemma matches_email (v : value) (d : document) :
  matches {["email" := v]} d <-> d !! "email" = Some v.
Proof.
  unfold matches.
  exact (map_Forall_singleton (fun k x => d !! k = Some x) "email" v).
Qed.

(** The query of both handlers finds a record exactly when the collection
    holds one with the submitted email. *)
Lemma get_documents_email (e : string) (w : World) :
  exists found,
    get_documents "user" {["email" := VStr e]} 1 w = (Returns found, w) /\
    (found = [] <->
     forall d, d ∈ collection "user" (store w) ->
               d !! "email" <> Some (VStr e)) /\
    (forall d, d ∈ found ->
       d ∈ collection "user" (store w) /\ d !! "email" = Some (VStr e)).
Proof.
  unfold get_documents. eexists. split; [reflexivity|].
  set (l := filter _ _).
  assert (forall d, d ∈ l <->
            d !! "email" = Some (VStr e) /\ d ∈ collection "user" (store w))
    as Hl.
  { intros d. unfold l. rewrite list_elem_of_filter.
    now rewrite matches_email. }
  split; [split|].
  - intros Hnil d Hd He.
    assert (d ∈ l) as Hin by (apply Hl; auto).
    destruct l as [|x l']; [inversion Hin|discriminate Hnil].
  - intros Hnone. destruct l as [|x l'] eqn:El; [reflexivity|].
    exfalso. assert (x ∈ x :: l') as Hx by constructor.
    apply Hl in Hx as [He Hin]. exact (Hnone x Hin He).
  - intros d Hd. apply and_comm, Hl.
    destruct l as [|x l']; [inversion Hd|].
    simpl in Hd. rewrite take_0 in Hd.
    apply list_elem_of_singleton in Hd as ->. constructor.
Qed.

(** C5. For every signup request whose email is the email of a record in
    the user collection, [signup] raises the HTTP error 400 and leaves
    the world as it was: no document is created, no salt is drawn and no
    credential is derived. *)
Theorem signup_duplicate_email
    (payload : SignupRequest.t) (w : World) (d : document) :
  d ∈ collection "user" (store w) ->
  d !! "email" = Some (VStr (SignupRequest.email payload)) ->
  signup payload w =
  (Raises (HTTPException 400 "Email already registered"), w).
Proof.
  intros Hd He.
  destruct (get_documents_email (SignupRequest.email payload) w)
    as (found & Hq & [Hnil _] & _).
  unfold signup, bind. rewrite Hq.
  destruct found as [|x l]; [|reflexivity].
  exfalso. exact (Hnil eq_refl d Hd He).
Qed.

(** Deriving a credential draws the salt and touches nothing else,
    whether it returns or raises. *)
Lemma hash_password_world (p : string) (w : World) :
  exists salt w1,
    token_hex 16 w = (Returns salt, w1) /\
    snd (hash_password p None w) = w1 /\
    store w1 = store w /\ clock w1 = clock w /\ next_id w1 = next_id w /\
    urandom w1 = urandom w /\ drawn w1 = (drawn w + 16)%nat.
Proof.
  exists (hexlify (map (fun i => urandom w i mod 256) (seq (drawn w) 16))),
         (mkWorld (store w) (next_id w) (urandom w) (drawn w + 16)%nat
                  (clock w)).
  split; [reflexivity|]. split; [|repeat split].
  erewrite hash_password_run by reflexivity.
  now destruct (has_surrogate _).
Qed.

Lemma hash_password_keeps_store (p : string) (w w1 : World) (c : string) :
  hash_password p None w = (Returns c, w1) ->
  store w1 = store w /\ clock w1 = clock w /\ next_id w1 = next_id w.
Proof.
  intros H.
  destruct (hash_password_world p w) as (salt & w2 & _ & Hw & Hs & Hc & Hn & _).
  rewrite H in Hw. cbn [snd] in Hw. subst w2. repeat split; assumption.
Qed.

(** What a signup that returns has done. *)
Lemma signup_returns
    (payload : SignupRequest.t) (w w' : World) (r : AuthResponse) :
  signup payload w = (Returns r, w') ->
  exists c w1,
    get_documents "user"
      {["email" := VStr (SignupRequest.email payload)]} 1 w
    = (Returns [], w) /\
    hash_password (SignupRequest.password payload) None w = (Returns c, w1) /\
    store w' =
      <["user" := collection "user" (store w)
                  ++ [new_user_doc payload c (clock w)]]> (store w) /\
    user r = delete "password_hash"
               (<["_id" := VId (next_id w)]>
                  (new_user_doc payload c (clock w))).
Proof.
  intros Hrun.
  unfold signup, bind in Hrun.
  destruct (get_documents _ _ _ w) as [[found|e] w0] eqn:Hq;
    [|unfold get_documents in Hq; discriminate Hq].
  assert (w0 = w) as -> by (unfold get_documents in Hq; congruence).
  destruct found as [|x l]; [|discriminate Hrun].
  cbn [truthy] in Hrun.
  destruct (hash_password (SignupRequest.password payload) None w)
    as [[c|e] w1] eqn:Hc; [|discriminate Hrun].
  destruct (hash_password_keeps_store _ _ _ _ Hc) as (Hstore & Hclock & Hid).
  unfold utcnow, create_document, token_urlsafe, bind, token_bytes, ret
    in Hrun.
  cbn [store next_id urandom drawn clock] in Hrun.
  injection Hrun as <- <-.
  exists c, w1. cbn [store user].
  rewrite Hstore, Hclock, Hid. repeat split; reflexivity.
Qed.

(** A signup with an email that no record has, and a password without
    surrogate, returns. *)
Lemma signup_succeeds (payload : SignupRequest.t) (w : World) :
  (forall d, d ∈ collection "user" (store w) ->
             d !! "email" <> Some (VStr (SignupRequest.email payload))) ->
  has_surrogate (SignupRequest.password payload) = false ->
  exists r w', signup payload w = (Returns r, w').
Proof.
  intros Hnew Hp.
  destruct (get_documents_email (SignupRequest.email payload) w)
    as (found & Hq & [_ Hnil] & _).
  rewrite (Hnil Hnew) in Hq.
  destruct (hash_password_fresh_run (SignupRequest.password payload) w Hp)
    as (salt & c & w1 & _ & Hc & _).
  unfold signup, bind. rewrite Hq. cbn [truthy]. rewrite Hc.
  unfold utcnow, create_document, token_urlsafe, bind, token_bytes, ret.
  eauto.
Qed.

(** C8. Every signup that returns has added exactly one record to the
    user collection, after the records that were there, and has left the
    other collections as they were; the record holds the submitted name
    and email, the credential derived from the submitted password under
    [password_hash], [is_active] true and the clock's time under
    [created_at]. *)
Theorem signup_persists_user
    (payload : SignupRequest.t) (w w' : World) (r : AuthResponse) :
  signup payload w = (Returns r, w') ->
  exists c w1 doc,
    hash_password (SignupRequest.password payload) None w = (Returns c, w1) /\
    collection "user" (store w') = collection "user" (store w) ++ [doc] /\
    (forall name, name <> "user" -> store w' !! name = store w !! name) /\
    doc !! "name" = Some (VStr (SignupRequest.name payload)) /\
    doc !! "email" = Some (VStr (SignupRequest.email payload)) /\
    doc !! "password_hash" = Some (VStr c) /\
    doc !! "is_active" = Some (VBool true) /\
    doc !! "created_at" = Some (VTime (clock w)).
Proof.
  intros Hrun.
  destruct (signup_returns _ _ _ _ Hrun) as (c & w1 & _ & Hc & Hstore & _).
  exists c, w1, (new_user_doc payload c (clock w)).
  split; [exact Hc|]. rewrite Hstore. split; [|split].
  - unfold collection at 1. now rewrite lookup_insert_eq.
  - intros name Hname. now rewrite lookup_insert_ne.
  - repeat split; reflexivity.
Qed.

Lemma signup_persists_user_witness :
  exists c w1 doc,
    hash_password "hunter2" None empty_world = (Returns c, w1) /\
    collection "user" (store ann_world) =
      collection "user" (store empty_world) ++ [doc] /\
    (forall name, name <> "user" ->
       store ann_world !! name = store empty_world !! name) /\
    doc !! "name" = Some (VStr "Ann") /\
    doc !! "email" = Some (VStr "a@b.com") /\
    doc !! "password_hash" = Some (VStr c) /\
    doc !! "is_active" = Some (VBool true) /\
    doc !! "created_at" = Some (VTime 1700000000).
Proof.
  unfold ann_world.
  destruct (signup ann_signup empty_world) as [[r|e] w'] eqn:E;
    [|vm_compute in E; discriminate E].
  exact (signup_persists_user ann_signup empty_world w' r E).
Defined.

Lemma ann_world_users :
  collection "user" (store ann_world) =
  [ann_record].
Proof. vm_compute. reflexivity. Qed.

Lemma signup_duplicate_email_witness :
  signup ann_signup ann_world =
  (Raises (HTTPException 400 "Email already registered"), ann_world).
Proof.
  apply (signup_duplicate_email ann_signup ann_world
           ann_record).
  - rewrite ann_world_users. constructor.
  - reflexivity.
Defined.

(** What a login that returns has done. *)
Lemma login_returns
    (payload : LoginRequest.t) (w w' : World) (r : AuthResponse) :
  login payload w = (Returns r, w') ->
  exists u rest stored,
    get_documents "user"
      {["email" := VStr (LoginRequest.email payload)]} 1 w
    = (Returns (u :: rest), w) /\
    default (VStr "") (u !! "password_hash") = VStr stored /\
    verify_password (LoginRequest.password payload) stored = Returns true /\
    user r = filter (fun kv => kv.1 <> "password_hash") u /\
    store w' = store w.
Proof.
  intros Hrun. unfold login, bind in Hrun.
  destruct (get_documents _ _ _ w) as [[found|e] w0] eqn:Hq;
    [|unfold get_documents in Hq; discriminate Hq].
  assert (w0 = w) as -> by (unfold get_documents in Hq; congruence).
  destruct found as [|u rest]; [discriminate Hrun|].
  unfold lift in Hrun.
  destruct (default (VStr "") (u !! "password_hash"))
    as [|stored| | | | | |] eqn:Hs; try discriminate Hrun.
  cbn [as_str result_bind] in Hrun.
  destruct (verify_password_cases (LoginRequest.password payload) stored)
    as [[b Hb]|Hb]; rewrite Hb in Hrun; [|discriminate Hrun].
  destruct b; [|discriminate Hrun].
  cbn [negb] in Hrun.
  unfold token_urlsafe, bind, token_bytes, ret in Hrun.
  injection Hrun as <- <-.
  exists u, rest, stored. repeat split; assumption.
Qed.

(** C4. Every record that a signup or a login returns to the client has
    no [password_hash] key. *)
Theorem response_omits_password_hash (r : AuthResponse) (w w' : World) :
  (exists payload, signup payload w = (Returns r, w')) \/
  (exists payload, login payload w = (Returns r, w')) ->
  user r !! "password_hash" = None.
Proof.
  intros [[payload Hrun]|[payload Hrun]].
  - destruct (signup_returns _ _ _ _ Hrun) as (c & w1 & _ & _ & _ & ->).
    apply lookup_delete_eq.
  - destruct (login_returns _ _ _ _ Hrun) as (u & rest & s & _ & _ & _ & -> & _).
    apply map_lookup_filter_None. right. intros x _ Hk. now apply Hk.
Qed.

Lemma response_omits_password_hash_witness :
  (exists r w',
     signup ann_signup empty_world = (Returns r, w') /\
     user r !! "password_hash" = None) /\
  (exists r w',
     login ann_login ann_world = (Returns r, w') /\
     user r !! "password_hash" = None).
Proof.
  split.
  - destruct (signup ann_signup empty_world) as [[r|e] w'] eqn:E;
      [|vm_compute in E; discriminate E].
    exists r, w'. split; [reflexivity|].
    apply (response_omits_password_hash r empty_world w').
    left. exists ann_signup. exact E.
  - destruct (login ann_login ann_world) as [[r|e] w'] eqn:E;
      [|vm_compute in E; discriminate E].
    exists r, w'. split; [reflexivity|].
    apply (response_omits_password_hash r ann_world w').
    right. exists ann_login. exact E.
Defined.

(** C3. A login whose email matches no record and a login whose email
    matches a record, but whose password does not verify against the
    credential stored in it, fail alike: both raise the HTTP error 401
    with the message "Invalid credentials", and both leave the world as
    it was. *)
Theorem login_failures_alike
    (p1 p2 : LoginRequest.t) (w1 w2 : World)
    (u : document) (rest : list document) (stored : string) :
  get_documents "user" {["email" := VStr (LoginRequest.email p1)]} 1 w1
  = (Returns [], w1) ->
  get_documents "user" {["email" := VStr (LoginRequest.email p2)]} 1 w2
  = (Returns (u :: rest), w2) ->
  default (VStr "") (u !! "password_hash") = VStr stored ->
  verify_password (LoginRequest.password p2) stored = Returns false ->
  login p1 w1 = (Raises (HTTPException 401 "Invalid credentials"), w1) /\
  login p2 w2 = (Raises (HTTPException 401 "Invalid credentials"), w2) /\
  fst (login p1 w1) = fst (login p2 w2).
Proof.
  intros Hq1 Hq2 Hs Hv.
  assert (login p1 w1
          = (Raises (HTTPException 401 "Invalid credentials"), w1)) as H1.
  { unfold login, bind. now rewrite Hq1. }
  assert (login p2 w2
          = (Raises (HTTPException 401 "Invalid credentials"), w2)) as H2.
  { unfold login, bind, lift. rewrite Hq2, Hs.
    cbn [as_str result_bind]. now rewrite Hv. }
  rewrite H1, H2. repeat split.
Qed.

Lemma login_failures_alike_witness :
  login unknown_email ann_world
  = (Raises (HTTPException 401 "Invalid credentials"), ann_world) /\
  login ann_wrong_password ann_world
  = (Raises (HTTPException 401 "Invalid credentials"), ann_world) /\
  fst (login unknown_email ann_world)
  = fst (login ann_wrong_password ann_world).
Proof.
  apply (login_failures_alike unknown_email ann_wrong_password
           ann_world ann_world ann_record [] ann_credential).
  - vm_compute. reflexivity.
  - vm_compute. reflexivity.
  - reflexivity.
  - vm_compute. reflexivity.
Defined.

(** The end-to-end example of the specification: signup, then login with
    the same credentials, returns the record without its credential. *)
Example signup_then_login :
  exists r w',
    login ann_login ann_world = (Returns r, w') /\
    map_to_list (user r) =
      [("created_at", VTime 1700000000); ("email", VStr "a@b.com");
       ("is_active", VBool true); ("name", VStr "Ann")] /\
    token r = "GyIpMDc-RUxTWmFob3Z9hIuSmaCnrrW8".
Proof.
  destruct (login ann_login ann_world) as [[r|e] w'] eqn:E;
    vm_compute in E; [|discriminate E].
  injection E as <- <-. do 2 eexists. split; [reflexivity|].
  split; vm_compute; reflexivity.
Qed.

(** * Further properties of the credential helpers *)

Lemma str_split_one (sep : ascii) (s b : string) :
  str_split sep s = [b] -> s = b /\ str_count sep b = O.
Proof.
  revert b. induction s as [|c s IH]; intros b; simpl.
  - intros [= <-]. split; reflexivity.
  - destruct (Ascii.eqb c sep) eqn:Ec; [intros [= _ H]|].
    + pose proof (str_split_length sep s) as Hl. rewrite H in Hl.
      discriminate Hl.
    + destruct (str_split sep s) as [|part parts] eqn:Es;
        [pose proof (str_split_length sep s) as Hl; rewrite Es in Hl;
         discriminate Hl|].
      intros [= <- ->]. destruct (IH part eq_refl) as [-> Hc].
      split; [reflexivity|]. simpl. now rewrite Ec.
Qed.

(** A text that splits into two parts is the first part, the separator
    and the second part, and neither part holds the separator. *)
Lemma str_split_pair (sep : ascii) (s a b : string) :
  str_split sep s = [a; b] ->
  s = a +:+ String sep b /\ str_count sep a = O /\ str_count sep b = O.
Proof.
  revert a. induction s as [|c s IH]; intros a; simpl; [discriminate|].
  destruct (Ascii.eqb_spec c sep) as [->|Hc].
  - intros [= <- H]. destruct (str_split_one _ _ _ H) as [-> Hb].
    repeat split; assumption.
  - destruct (str_split sep s) as [|part parts] eqn:Es; [discriminate|].
    intros [= <- ->]. destruct (IH part eq_refl) as (-> & Ha & Hb).
    repeat split; try assumption. simpl.
    destruct (Ascii.eqb_spec c sep); [contradiction|assumption].
Qed.

Lemma verify_password_accepts (p stored : string) :
  verify_password p stored = Returns true <->
  exists salt,
    str_count "$" salt = O /\
    has_surrogate (salt +:+ p) = false /\
    stored = salt +:+ "$" +:+ sha256_hex (salt +:+ p).
Proof.
  split.
  - rewrite verify_password_unpack.
    destruct (str_split "$" stored) as [|a [|b [|c l]]] eqn:Es;
      try discriminate.
    destruct (has_surrogate (a +:+ p)) eqn:Hp; [discriminate|].
    remember (sha256_hex (a +:+ p)) as h eqn:Hh. intros Hret.
    injection Hret as Heq. apply String.eqb_eq in Heq. subst b.
    destruct (str_split_pair _ _ _ _ Es) as (-> & Ha & _).
    exists a. split; [assumption|]. split; [assumption|]. now rewrite Hh.
  - intros (salt & Hs & Hp & ->).
    rewrite verify_password_credential; [|assumption| |assumption].
    + now rewrite String.eqb_refl.
    + apply is_hex_no_dollar, sha256_hex_is_hex.
Qed.

Lemma verify_password_raises (p stored : string) :
  verify_password p stored = Raises UnicodeEncodeError <->
  exists salt digest,
    str_split "$" stored = [salt; digest] /\
    has_surrogate (salt +:+ p) = true.
Proof.
  rewrite verify_password_unpack. split.
  - destruct (str_split "$" stored) as [|a [|b [|c l]]] eqn:Es;
      try discriminate.
    destruct (has_surrogate (a +:+ p)) eqn:Hp; [|discriminate].
    intros _. now exists a, b.
  - intros (salt & digest & -> & ->). reflexivity.
Qed.

(** X1. [verify_password p stored] has three outcomes.  It returns true
    exactly when [stored] is a salt without delimiter, the delimiter, and
    the SHA-256 digest, in 64 lowercase hexadecimal digits, of the salt
    followed by [p], and that text holds no surrogate.  It raises
    [UnicodeEncodeError] exactly when [stored] splits into two parts and
    the first part followed by [p] holds a surrogate.  In every other
    case it returns false. *)
Theorem verify_password_true_iff (p stored : string) :
  (verify_password p stored = Returns true <->
   exists salt,
     str_count "$" salt = O /\
     has_surrogate (salt +:+ p) = false /\
     stored = salt +:+ "$" +:+ sha256_hex (salt +:+ p)) /\
  (verify_password p stored = Raises UnicodeEncodeError <->
   exists salt digest,
     str_split "$" stored = [salt; digest] /\
     has_surrogate (salt +:+ p) = true) /\
  (verify_password p stored = Returns true \/
   verify_password p stored = Raises UnicodeEncodeError \/
   verify_password p stored = Returns false).
Proof.
  split; [exact (verify_password_accepts p stored)|].
  split; [exact (verify_password_raises p stored)|].
  destruct (verify_password_cases p stored) as [[[|] Hb]|Hb]; auto.
Qed.

(** X2. When a given salt followed by the password holds no surrogate,
    [hash_password] returns a credential, and the password verifies
    against it exactly when the salt holds no delimiter; the empty salt
    counts, as a random salt then takes its place. *)
Theorem verify_password_given_salt (p salt : string) (w : World) :
  has_surrogate (salt +:+ p) = false ->
  exists c w',
    hash_password p (Some salt) w = (Returns c, w') /\
    (verify_password p c = Returns true <-> str_count "$" salt = O).
Proof.
  intros Hp. destruct (String.eqb_spec salt "") as [->|Hne].
  - destruct (hash_password_fresh_run p w Hp)
      as (s & c & w' & _ & Hc & _ & _ & Hv & _).
    exists c, w'. split; [exact Hc|]. split; [reflexivity|auto].
  - exists (salt +:+ "$" +:+ sha256_hex (salt +:+ p)), w.
    split; [now apply hash_password_given|].
    rewrite verify_password_accepts. split.
    + intros (s & Hs & _ & E).
      change (salt +:+ String "$" (sha256_hex (salt +:+ p))
              = s +:+ String "$" (sha256_hex (s +:+ p))) in E.
      assert (str_split "$" (salt +:+ String "$" (sha256_hex (salt +:+ p)))
              = [s; sha256_hex (s +:+ p)]) as Hsp.
      { rewrite E. apply str_split_two; [assumption|].
        apply is_hex_no_dollar, sha256_hex_is_hex. }
      pose proof (str_split_length "$"
                    (salt +:+ String "$" (sha256_hex (salt +:+ p)))) as Hl.
      rewrite Hsp, str_count_app, str_count_cons_sep in Hl.
      cbn [length] in Hl. lia.
    + intros Hs. exists salt. repeat split; assumption.
Qed.

Lemma verify_password_given_salt_witness :
  (exists c w',
     hash_password "hunter2" (Some "pepper") empty_world = (Returns c, w') /\
     (verify_password "hunter2" c = Returns true <->
      str_count "$" "pepper" = O)) /\
  (exists c w',
     hash_password "hunter2" (Some "pep$per") empty_world = (Returns c, w') /\
     (verify_password "hunter2" c = Returns true <->
      str_count "$" "pep$per" = O)).
Proof.
  split.
  - apply (verify_password_given_salt "hunter2" "pepper"). reflexivity.
  - apply (verify_password_given_salt "hunter2" "pep$per"). reflexivity.
Defined.

Lemma str_length_app (a b : string) :
  String.length (a +:+ b) = (String.length a + String.length b)%nat.
Proof. induction a as [|c a IH]; simpl; [reflexivity|now rewrite IH]. Qed.

(** X3. Every credential that [hash_password] returns when no salt is
    given has 97 characters: 32 hexadecimal digits of salt, one
    delimiter, and 64 hexadecimal digits of digest. *)
Theorem hash_password_format (p c : string) (w w' : World) :
  hash_password p None w = (Returns c, w') ->
  exists salt digest,
    c = salt +:+ "$" +:+ digest /\
    String.length salt = 32%nat /\ is_hex salt = true /\
    String.length digest = 64%nat /\ is_hex digest = true /\
    String.length c = 97%nat /\ str_count "$" c = 1%nat.
Proof.
  intros Hc.
  destruct (hash_password_returned _ _ _ _ Hc)
    as (_ & salt & _ & Hhex & Hlen & -> & _).
  exists salt, (sha256_hex (salt +:+ p)).
  pose proof (sha256_hex_is_hex (salt +:+ p)) as Hd.
  pose proof (sha256_hex_length (salt +:+ p)) as Hdl.
  repeat split; try assumption.
  - rewrite str_length_app.
    change ("$" +:+ sha256_hex (salt +:+ p))
      with (String "$" (sha256_hex (salt +:+ p))).
    cbn [String.length]. rewrite Hlen, Hdl. reflexivity.
  - rewrite str_count_app.
    change ("$" +:+ sha256_hex (salt +:+ p))
      with (String "$" (sha256_hex (salt +:+ p))).
    rewrite str_count_cons_sep, !is_hex_no_dollar by assumption.
    reflexivity.
Qed.

Lemma hash_password_format_witness :
  exists salt digest,
    ann_credential = salt +:+ "$" +:+ digest /\
    String.length salt = 32%nat /\ is_hex salt = true /\
    String.length digest = 64%nat /\ is_hex digest = true /\
    String.length ann_credential = 97%nat /\
    str_count "$" ann_credential = 1%nat.
Proof.
  apply (hash_password_format "hunter2" ann_credential empty_world
           (snd (hash_password "hunter2" None empty_world))).
  vm_compute. reflexivity.
Defined.

(** X4. The digest covers the salt and the password as one text: when a
    salt followed by a password reads the same as another salt followed
    by another password, and that text holds no surrogate, the digest of
    the first pair under the second salt verifies the second password. *)
Theorem verify_password_boundary (salt p salt' p' : string) :
  salt +:+ p = salt' +:+ p' ->
  str_count "$" salt' = O ->
  has_surrogate (salt +:+ p) = false ->
  verify_password p' (salt' +:+ "$" +:+ sha256_hex (salt +:+ p))
  = Returns true.
Proof.
  intros E Hs Hp. apply verify_password_accepts.
  exists salt'. split; [assumption|]. rewrite <- E.
  split; [assumption|reflexivity].
Qed.

Lemma verify_password_boundary_witness :
  verify_password "bc" ("a" +:+ "$" +:+ sha256_hex ("ab" +:+ "c"))
  = Returns true.
Proof.
  apply (verify_password_boundary "ab" "c" "a" "bc"); reflexivity.
Defined.

(** * Further properties of signup and login *)

Lemma matches_single (k : string) (v : value) (d : document) :
  matches {[k := v]} d <-> d !! k = Some v.
Proof.
  unfold matches.
  exact (map_Forall_singleton (fun i x => d !! i = Some x) k v).
Qed.

Lemma get_documents_run (name : string) (flt : document) (limit : Z)
    (w : World) :
  get_documents name flt limit w =
  (Returns (take (Z.to_nat limit)
                 (filter (matches flt) (collection name (store w)))), w).
Proof. reflexivity. Qed.

Lemma get_documents_one (name : string) (flt : document) (w : World) :
  get_documents name flt 1 w =
  (Returns (take 1 (filter (matches flt) (collection name (store w)))), w).
Proof. reflexivity. Qed.

Lemma take_1_nil {A} (l : list A) : take 1 l = [] -> l = [].
Proof. destruct l; [reflexivity|discriminate]. Qed.

Lemma signup_existing_email
    (payload : SignupRequest.t) (w : World) (d : document) :
  d ∈ collection "user" (store w) ->
  d !! "email" = Some (VStr (SignupRequest.email payload)) ->
  signup payload w =
  (Raises (HTTPException 400 "Email already registered"), w).
Proof.
  intros Hd He. unfold signup, bind. rewrite get_documents_one.
  assert (d ∈ filter (matches {["email" := VStr (SignupRequest.email payload)]})
                (collection "user" (store w))) as Hin.
  { apply list_elem_of_filter. split; [now apply matches_single|assumption]. }
  destruct (filter _ _) as [|x l]; [inversion Hin|reflexivity].
Qed.

(** A signup with an email that no record has, and a password with a
    surrogate, draws the salt and raises; the store is as before. *)
Lemma signup_surrogate (payload : SignupRequest.t) (w : World) :
  (forall d, d ∈ collection "user" (store w) ->
             d !! "email" <> Some (VStr (SignupRequest.email payload))) ->
  has_surrogate (SignupRequest.password payload) = true ->
  exists w',
    signup payload w = (Raises UnicodeEncodeError, w') /\
    store w' = store w /\ next_id w' = next_id w /\
    drawn w' = (drawn w + 16)%nat.
Proof.
  intros Hnew Hp.
  destruct (get_documents_email (SignupRequest.email payload) w)
    as (found & Hq & [_ Hnil] & _).
  rewrite (Hnil Hnew) in Hq.
  destruct (hash_password_world (SignupRequest.password payload) w)
    as (salt & w1 & Hrun & Hw & Hst & _ & Hid & _ & Hdr).
  destruct (hash_password_fresh_raise _ w Hp) as (salt' & w1' & Hrun' & Hr).
  rewrite Hrun in Hrun'. injection Hrun' as <- <-.
  exists w1. split; [|repeat split; assumption].
  unfold signup, bind. rewrite Hq. cbn [truthy]. now rewrite Hr.
Qed.

(** X5. [signup] has three outcomes.  When a record of the user
    collection has the submitted email, it raises the HTTP error 400 and
    leaves the world as it was.  When none has, it returns if the
    password holds no surrogate, and else draws the salt and raises
    [UnicodeEncodeError], with the store as it was.  The name is not
    examined, and the password only for its encoding. *)
Theorem signup_outcome (payload : SignupRequest.t) (w : World) :
  ((forall d, d ∈ collection "user" (store w) ->
      d !! "email" <> Some (VStr (SignupRequest.email payload))) /\
   has_surrogate (SignupRequest.password payload) = false /\
   exists r w', signup payload w = (Returns r, w'))
  \/
  ((forall d, d ∈ collection "user" (store w) ->
      d !! "email" <> Some (VStr (SignupRequest.email payload))) /\
   has_surrogate (SignupRequest.password payload) = true /\
   exists w',
     signup payload w = (Raises UnicodeEncodeError, w') /\
     store w' = store w /\ next_id w' = next_id w /\
     drawn w' = (drawn w + 16)%nat)
  \/
  ((exists d, d ∈ collection "user" (store w) /\
      d !! "email" = Some (VStr (SignupRequest.email payload))) /\
   signup payload w =
   (Raises (HTTPException 400 "Email already registered"), w)).
Proof.
  destruct (get_documents_email (SignupRequest.email payload) w)
    as (found & Hq & [Hnil _] & Hfound).
  destruct found as [|x l].
  - destruct (has_surrogate (SignupRequest.password payload)) eqn:Hp.
    + right. left. split; [exact (Hnil eq_refl)|]. split; [reflexivity|].
      apply signup_surrogate; [exact (Hnil eq_refl)|exact Hp].
    + left. split; [exact (Hnil eq_refl)|]. split; [reflexivity|].
      apply signup_succeeds; [exact (Hnil eq_refl)|exact Hp].
  - right. right. destruct (Hfound x) as [Hx He]; [constructor|].
    split; [now exists x|]. now apply (signup_existing_email _ _ x).
Qed.

Example signup_surrogate_password :
  fst (signup (SignupRequest.Build "Sue" "sue@b.com" lone_surrogate)
              empty_world)
  = Raises UnicodeEncodeError.
Proof. vm_compute. reflexivity. Qed.

(** The record that a signup has stored is in the user collection. *)
Lemma signup_stored
    (payload : SignupRequest.t) (w w' : World) (r : AuthResponse) :
  signup payload w = (Returns r, w') ->
  exists c,
    verify_password (SignupRequest.password payload) c = Returns true /\
    collection "user" (store w') =
      collection "user" (store w) ++ [new_user_doc payload c (clock w)] /\
    filter (matches {["email" := VStr (SignupRequest.email payload)]})
           (collection "user" (store w')) =
      [new_user_doc payload c (clock w)] /\
    user r = delete "password_hash"
               (<["_id" := VId (next_id w)]>
                  (new_user_doc payload c (clock w))).
Proof.
  intros Hrun.
  destruct (signup_returns _ _ _ _ Hrun) as (c & w1 & Hq & Hc & Hstore & Hr).
  destruct (hash_password_returned _ _ _ _ Hc)
    as (_ & salt & _ & _ & _ & _ & Hv).
  exists c. split; [exact Hv|].
  assert (collection "user" (store w') =
          collection "user" (store w) ++ [new_user_doc payload c (clock w)])
    as Hcoll.
  { rewrite Hstore. unfold collection at 1. now rewrite lookup_insert_eq. }
  split; [exact Hcoll|]. split; [|exact Hr].
  rewrite Hcoll, filter_app.
  rewrite get_documents_one in Hq. injection Hq as Hq.
  rewrite (take_1_nil _ Hq). simpl.
  rewrite filter_cons_True; [reflexivity|].
  apply matches_single. reflexivity.
Qed.

(** X6. After a signup has returned, every signup with the same email
    raises the HTTP error 400 and changes nothing, whatever name and
    password it submits. *)
Theorem signup_same_email_again
    (first second : SignupRequest.t) (w w' : World) (r : AuthResponse) :
  signup first w = (Returns r, w') ->
  SignupRequest.email second = SignupRequest.email first ->
  signup second w' =
  (Raises (HTTPException 400 "Email already registered"), w').
Proof.
  intros Hrun He.
  destruct (signup_stored _ _ _ _ Hrun) as (c & _ & Hcoll & _).
  apply (signup_existing_email _ _ (new_user_doc first c (clock w))).
  - rewrite Hcoll. apply elem_of_app. right. constructor.
  - rewrite He. reflexivity.
Qed.

Lemma signup_same_email_again_witness :
  signup (SignupRequest.Build "Bob" "a@b.com" "letmein") ann_world =
  (Raises (HTTPException 400 "Email already registered"), ann_world).
Proof.
  unfold ann_world.
  destruct (signup ann_signup empty_world) as [[r|e] w'] eqn:E;
    [|vm_compute in E; discriminate E].
  apply (signup_same_email_again ann_signup
           (SignupRequest.Build "Bob" "a@b.com" "letmein") empty_world w' r E).
  reflexivity.
Defined.

(** The dict comprehension of [login] keeps every other key. *)
Lemma lookup_sanitized (u : document) (k : string) :
  k <> "password_hash" ->
  filter (fun kv : string * value => kv.1 <> "password_hash") u !! k = u !! k.
Proof.
  intros Hk. destruct (u !! k) as [v|] eqn:E.
  - apply map_lookup_filter_Some. split; [assumption|exact Hk].
  - apply map_lookup_filter_None. left. assumption.
Qed.

(** X7. After a signup has returned, a login with the same email and
    password returns, and the record it returns has the fields of the
    record that the signup returned, apart from [_id]: name, email,
    [is_active] and [created_at], and no [password_hash]. *)
Theorem signup_then_login_returns
    (payload : SignupRequest.t) (w w' : World) (r : AuthResponse) :
  signup payload w = (Returns r, w') ->
  exists r2 w2,
    login (LoginRequest.Build (SignupRequest.email payload)
                              (SignupRequest.password payload)) w'
    = (Returns r2, w2) /\
    store w2 = store w' /\
    user r2 !! "name" = Some (VStr (SignupRequest.name payload)) /\
    user r2 !! "email" = Some (VStr (SignupRequest.email payload)) /\
    user r2 !! "is_active" = Some (VBool true) /\
    user r2 !! "created_at" = Some (VTime (clock w)) /\
    user r2 !! "password_hash" = None /\
    (forall k, k <> "_id" -> user r2 !! k = user r !! k).
Proof.
  intros Hrun.
  destruct (signup_stored _ _ _ _ Hrun) as (c & Hv & _ & Hflt & Hr).
  unfold login, bind, lift. rewrite get_documents_one.
  cbn [LoginRequest.email LoginRequest.password]. rewrite Hflt.
  cbn [take].
  change (new_user_doc payload c (clock w) !! "password_hash")
    with (Some (VStr c)).
  cbn [default from_option id as_str result_bind]. rewrite Hv. cbn [negb].
  unfold token_urlsafe, bind, token_bytes, ret.
  do 2 eexists. split; [reflexivity|]. cbn [user store].
  split; [reflexivity|].
  repeat split; try reflexivity.
  intros k Hk. rewrite Hr.
  destruct (decide (k = "password_hash")) as [->|Hp].
  - rewrite lookup_delete_eq. reflexivity.
  - rewrite lookup_delete_ne, lookup_insert_ne by congruence.
    now apply lookup_sanitized.
Qed.

Lemma signup_then_login_returns_witness :
  exists r w' r2 w2,
    signup ann_signup empty_world = (Returns r, w') /\
    login ann_login w' = (Returns r2, w2) /\
    store w2 = store w' /\
    user r2 !! "name" = Some (VStr "Ann") /\
    user r2 !! "email" = Some (VStr "a@b.com") /\
    user r2 !! "is_active" = Some (VBool true) /\
    user r2 !! "created_at" = Some (VTime 1700000000) /\
    user r2 !! "password_hash" = None /\
    (forall k, k <> "_id" -> user r2 !! k = user r !! k).
Proof.
  destruct (signup ann_signup empty_world) as [[r|e] w'] eqn:E;
    [|vm_compute in E; discriminate E].
  destruct (signup_then_login_returns ann_signup empty_world w' r E)
    as (r2 & w2 & H).
  exists r, w', r2, w2. split; [reflexivity|exact H].
Defined.

(** X8. The record that a login returns is a record of the user
    collection with the submitted email, with every field as stored,
    apart from [password_hash]. *)
Theorem login_response_fields
    (payload : LoginRequest.t) (w w' : World) (r : AuthResponse) :
  login payload w = (Returns r, w') ->
  exists u,
    u ∈ collection "user" (store w) /\
    u !! "email" = Some (VStr (LoginRequest.email payload)) /\
    (forall k, k <> "password_hash" -> user r !! k = u !! k).
Proof.
  intros Hrun.
  destruct (login_returns _ _ _ _ Hrun)
    as (u & rest & stored & Hq & _ & _ & Hr & _).
  destruct (get_documents_email (LoginRequest.email payload) w)
    as (found & Hq' & _ & Hfound).
  rewrite Hq in Hq'. injection Hq' as <-.
  destruct (Hfound u) as [Hu He]; [constructor|].
  exists u. repeat split; try assumption.
  intros k Hk. rewrite Hr. now apply lookup_sanitized.
Qed.

Lemma login_response_fields_witness :
  exists r w' u,
    login ann_login ann_world = (Returns r, w') /\
    u ∈ collection "user" (store ann_world) /\
    u !! "email" = Some (VStr "a@b.com") /\
    (forall k, k <> "password_hash" -> user r !! k = u !! k).
Proof.
  destruct (login ann_login ann_world) as [[r|e] w'] eqn:E;
    [|vm_compute in E; discriminate E].
  destruct (login_response_fields ann_login ann_world w' r E) as (u & H).
  exists r, w', u. split; [reflexivity|exact H].
Defined.

(** X9. A login never writes: whatever its outcome, the document store,
    the supply of identifiers and the clock are as before.  It draws 24
    random bytes, for the token, when it returns, and none when it
    raises. *)
Theorem login_read_only (payload : LoginRequest.t) (w : World) :
  store (login payload w).2 = store w /\
  next_id (login payload w).2 = next_id w /\
  clock (login payload w).2 = clock w /\
  drawn (login payload w).2 =
    (drawn w + match (login payload w).1 with
               | Returns _ => 24
               | Raises _ => 0
               end)%nat.
Proof.
  unfold login, bind, lift. rewrite get_documents_one.
  destruct (take 1 _) as [|u rest]; [cbn; repeat split; lia|].
  destruct (default (VStr "") (u !! "password_hash"))
    as [|stored| | | | | |]; try (cbn; repeat split; lia).
  cbn [as_str result_bind].
  destruct (verify_password_cases (LoginRequest.password payload) stored)
    as [[[|] ->]| ->]; cbn; repeat split; lia.
Qed.

(** X10. A login whose email finds a record without [password_hash]
    raises the HTTP error 401, whatever the password: the default, the
    empty text, is not a credential. *)
Theorem login_without_credential
    (payload : LoginRequest.t) (w : World)
    (u : document) (rest : list document) :
  get_documents "user" {["email" := VStr (LoginRequest.email payload)]} 1 w
  = (Returns (u :: rest), w) ->
  u !! "password_hash" = None ->
  login payload w = (Raises (HTTPException 401 "Invalid credentials"), w).
Proof.
  intros Hq Hnone. unfold login, bind, lift. rewrite Hq, Hnone.
  cbn [default from_option id as_str result_bind].
  rewrite (verify_password_bad_split _ "") by (cbn; lia).
  reflexivity.
Qed.

Lemma login_without_credential_witness :
  login (LoginRequest.Build "old@b.com" "anything") legacy_world
  = (Raises (HTTPException 401 "Invalid credentials"), legacy_world).
Proof.
  apply (login_without_credential
           (LoginRequest.Build "old@b.com" "anything") legacy_world
           bare_user []).
  - vm_compute. reflexivity.
  - reflexivity.
Defined.

(** X11. A login whose email finds a record whose [password_hash] is not
    a text raises an exception that the handler does not catch, and not
    the HTTP error 401: [TypeError] when the value is bytes, which refuse
    a text as separator, and [AttributeError] for every other value,
    which has no [split]. *)
Theorem login_credential_not_text
    (payload : LoginRequest.t) (w : World)
    (u : document) (rest : list document) (v : value) :
  get_documents "user" {["email" := VStr (LoginRequest.email payload)]} 1 w
  = (Returns (u :: rest), w) ->
  u !! "password_hash" = Some v ->
  (forall s, v <> VStr s) ->
  login payload w =
  (Raises (match v with VBytes _ => TypeError | _ => AttributeError end), w).
Proof.
  intros Hq Hv Hns. unfold login, bind, lift. rewrite Hq, Hv.
  cbn [default from_option id].
  destruct v as [|s| | | | | |]; try reflexivity.
  now contradiction (Hns s).
Qed.

Lemma login_credential_not_text_witness :
  login (LoginRequest.Build "odd@b.com" "anything") legacy_world
  = (Raises AttributeError, legacy_world) /\
  login (LoginRequest.Build "raw@b.com" "anything") bytes_world
  = (Raises TypeError, bytes_world).
Proof.
  split.
  - apply (login_credential_not_text
             (LoginRequest.Build "odd@b.com" "anything") legacy_world
             odd_user [] (VBool true)).
    + vm_compute. reflexivity.
    + reflexivity.
    + discriminate.
  - apply (login_credential_not_text
             (LoginRequest.Build "raw@b.com" "anything") bytes_world
             bytes_user [] (VBytes [97; 36; 98])).
    + vm_compute. reflexivity.
    + reflexivity.
    + discriminate.
Defined.

(** X12. The token that a signup returns is the URL-safe base64 text of
    the 24 random bytes that follow the 16 bytes of the salt.  It has 32
    characters, and name, email and password have no part in it. *)
Theorem signup_token
    (payload : SignupRequest.t) (w w' : World) (r : AuthResponse) :
  signup payload w = (Returns r, w') ->
  token r =
    string_of_list_ascii
      (b64_urlsafe (map (fun i => urandom w i mod 256)
                        (seq (drawn w + 16) 24))) /\
  String.length (token r) = 32%nat /\
  drawn w' = (drawn w + 40)%nat.
Proof.
  intros Hrun. unfold signup, bind in Hrun.
  rewrite get_documents_one in Hrun.
  destruct (take 1 _) as [|x l]; [|discriminate Hrun].
  cbn [truthy] in Hrun.
  destruct (hash_password_world (SignupRequest.password payload) w)
    as (salt & w1 & _ & Hw & _ & _ & _ & Hur & Hdr).
  destruct (hash_password (SignupRequest.password payload) None w)
    as [[c|e] w1'] eqn:Hc; [|discriminate Hrun].
  cbn [snd] in Hw. subst w1'.
  unfold utcnow, create_document, token_urlsafe, bind, token_bytes, ret
    in Hrun.
  cbn [store next_id urandom drawn clock] in Hrun.
  injection Hrun as <- <-. cbn [token drawn].
  rewrite Hur, Hdr.
  split; [reflexivity|]. split; [reflexivity|lia].
Qed.

Lemma signup_token_witness :
  exists r w',
    signup ann_signup empty_world = (Returns r, w') /\
    token r = "c3qBiI-WnaSrsrnAx87V3OPq8fj_Bg0U" /\
    String.length (token r) = 32%nat /\
    drawn w' = 40%nat.
Proof.
  destruct (signup ann_signup empty_world) as [[r|e] w'] eqn:E;
    [|vm_compute in E; discriminate E].
  destruct (signup_token ann_signup empty_world w' r E) as (Ht & Hl & Hd).
  exists r, w'. split; [reflexivity|]. split; [|split; assumption].
  rewrite Ht. vm_compute. reflexivity.
Defined.

(** X19. The record that a signup returns is the record that it has
    stored, field for field, apart from two keys: [password_hash] is
    left out, and [_id] holds the identifier that [create_document]
    returned. *)
Theorem signup_response_record
    (payload : SignupRequest.t) (w w' : World) (r : AuthResponse) :
  signup payload w = (Returns r, w') ->
  exists doc,
    collection "user" (store w') = collection "user" (store w) ++ [doc] /\
    is_Some (doc !! "password_hash") /\
    user r !! "password_hash" = None /\
    user r !! "_id" = Some (VId (next_id w)) /\
    (forall k, k <> "_id" -> k <> "password_hash" ->
               user r !! k = doc !! k).
Proof.
  intros Hrun.
  destruct (signup_stored _ _ _ _ Hrun) as (c & _ & Hcoll & _ & Hr).
  exists (new_user_doc payload c (clock w)).
  split; [exact Hcoll|]. split; [now exists (VStr c)|].
  rewrite Hr. split; [apply lookup_delete_eq|]. split.
  - rewrite lookup_delete_ne by discriminate. apply lookup_insert_eq.
  - intros k Hid Hph.
    rewrite lookup_delete_ne, lookup_insert_ne by congruence. reflexivity.
Qed.

Lemma signup_response_record_witness :
  exists r doc,
    fst (signup ann_signup empty_world) = Returns r /\
    collection "user" (store ann_world) =
      collection "user" (store empty_world) ++ [doc] /\
    is_Some (doc !! "password_hash") /\
    user r !! "password_hash" = None /\
    user r !! "_id" = Some (VId 0) /\
    (forall k, k <> "_id" -> k <> "password_hash" ->
               user r !! k = doc !! k).
Proof.
  unfold ann_world.
  destruct (signup ann_signup empty_world) as [[r|e] w'] eqn:E;
    [|vm_compute in E; discriminate E].
  destruct (signup_response_record ann_signup empty_world w' r E)
    as (doc & H).
  exists r, doc. split; [reflexivity|exact H].
Defined.

(** * Properties of the blog endpoints *)

Lemma list_posts_run (limit : Z) (w : World) :
  exists posts,
    list_posts limit w = (Returns (mkPostList posts), w) /\
    (length posts <= Z.to_nat limit)%nat /\
    forall item, item ∈ posts ->
      item !! "password_hash" = None /\
      item !! "status" = Some (VStr "published") /\
      exists d, d ∈ collection "blogpost" (store w) /\
                forall k, k <> "password_hash" -> item !! k = d !! k.
Proof.
  unfold list_posts, bind, ret. rewrite get_documents_run.
  eexists. split; [reflexivity|]. split.
  - rewrite length_map, length_take. lia.
  - intros item Hitem. apply list_elem_of_In, in_map_iff in Hitem.
    destruct Hitem as (d & <- & Hd). apply list_elem_of_In in Hd.
    apply elem_of_take in Hd as (i & Hd%list_elem_of_lookup_2 & _).
    apply list_elem_of_filter in Hd as [Hm Hd].
    apply matches_single in Hm.
    split; [apply lookup_delete_eq|].
    split; [now rewrite lookup_delete_ne|].
    exists d. split; [assumption|].
    intros k Hk. now rewrite lookup_delete_ne.
Qed.

(** X13. For a limit from zero, [list_posts] returns and changes
    nothing.  It returns at most [limit] items; each item has the status
    "published", has no [password_hash], and is otherwise, field by
    field, a record of the blogpost collection. *)
Theorem list_posts_items (limit : Z) (w : World) :
  0 <= limit ->
  exists posts,
    list_posts limit w = (Returns (mkPostList posts), w) /\
    Z.of_nat (length posts) <= limit /\
    forall item, item ∈ posts ->
      item !! "password_hash" = None /\
      item !! "status" = Some (VStr "published") /\
      exists d, d ∈ collection "blogpost" (store w) /\
                forall k, k <> "password_hash" -> item !! k = d !! k.
Proof.
  intros Hlimit.
  destruct (list_posts_run limit w) as (posts & Hrun & Hlen & Hitems).
  exists posts. split; [exact Hrun|]. split; [lia|exact Hitems].
Qed.

Lemma list_posts_items_witness :
  exists posts,
    list_posts 1 shop_world = (Returns (mkPostList posts), shop_world) /\
    Z.of_nat (length posts) <= 1 /\
    forall item, item ∈ posts ->
      item !! "password_hash" = None /\
      item !! "status" = Some (VStr "published") /\
      exists d, d ∈ collection "blogpost" (store shop_world) /\
                forall k, k <> "password_hash" -> item !! k = d !! k.
Proof.
  apply (list_posts_items 1 shop_world). lia.
Defined.

Example list_posts_shop :
  map (fun d : document => map_to_list d)
      (items (default (mkPostList []) (match fst (list_posts 1 shop_world)
                                       with Returns l => Some l | _ => None end)))
  = [[("slug", VStr "news"); ("status", VStr "published");
      ("title", VStr "News")]].
Proof. vm_compute. reflexivity. Qed.

(** X14. [get_post] has two outcomes: it raises the HTTP error 404 when
    no record of the blogpost collection has the slug, and else returns a
    record of the collection that has the slug, as stored.  The status of
    the record plays no part, and nothing is changed. *)
Theorem get_post_outcome (slug : string) (w : World) :
  ((forall d, d ∈ collection "blogpost" (store w) ->
      d !! "slug" <> Some (VStr slug)) /\
   get_post slug w = (Raises (HTTPException 404 "Post not found"), w))
  \/
  (exists d,
     d ∈ collection "blogpost" (store w) /\
     d !! "slug" = Some (VStr slug) /\
     get_post slug w = (Returns d, w)).
Proof.
  unfold get_post, bind. rewrite get_documents_one.
  destruct (filter _ _) as [|d l] eqn:Ef.
  - left. split; [|reflexivity].
    intros d Hd Hs.
    assert (d ∈ filter (matches {["slug" := VStr slug]})
                  (collection "blogpost" (store w))) as Hin.
    { apply list_elem_of_filter. split; [now apply matches_single|assumption]. }
    rewrite Ef in Hin. inversion Hin.
  - right. exists d.
    assert (d ∈ filter (matches {["slug" := VStr slug]})
                  (collection "blogpost" (store w))) as Hin
      by (rewrite Ef; constructor).
    apply list_elem_of_filter in Hin as [Hm Hd].
    apply matches_single in Hm. repeat split; assumption.
Qed.

(** X15. A record that is not published and is the first with its slug
    is served by [get_post], field for field, though no listing of
    [list_posts] has it. *)
Theorem get_post_serves_unlisted
    (slug : string) (w : World) (d : document) (rest : list document) :
  filter (matches {["slug" := VStr slug]})
         (collection "blogpost" (store w)) = d :: rest ->
  d !! "status" <> Some (VStr "published") ->
  get_post slug w = (Returns d, w) /\
  forall limit posts,
    list_posts limit w = (Returns (mkPostList posts), w) ->
    forall item, item ∈ posts -> item !! "status" <> d !! "status".
Proof.
  intros Hf Hst. split.
  - unfold get_post, bind. rewrite get_documents_one, Hf. reflexivity.
  - intros limit posts Hrun item Hitem.
    destruct (list_posts_run limit w) as (posts' & Hrun' & _ & Hall).
    rewrite Hrun in Hrun'. injection Hrun' as <-.
    destruct (Hall item Hitem) as (_ & Hpub & _).
    rewrite Hpub. congruence.
Qed.

Lemma get_post_serves_unlisted_witness :
  get_post "plans" blog_world = (Returns draft_post, blog_world) /\
  forall limit posts,
    list_posts limit blog_world = (Returns (mkPostList posts), blog_world) ->
    forall item, item ∈ posts -> item !! "status" <> draft_post !! "status".
Proof.
  apply (get_post_serves_unlisted "plans" blog_world draft_post []).
  - vm_compute. reflexivity.
  - discriminate.
Defined.

(** * Properties of the derived fields of a post *)

Lemma str_len_app (a b : string) :
  str_len (a +:+ b) = (str_len a + str_len b)%nat.
Proof.
  induction a as [|c a IH]; [reflexivity|].
  change (String c a +:+ b) with (String c (a +:+ b)).
  cbn [str_len]. rewrite IH. now destruct (is_continuation c).
Qed.

Lemma str_len_take (n : nat) (s : string) :
  str_len (str_take n s) = Nat.min n (str_len s).
Proof.
  revert n. induction s as [|c s IH]; intros n; cbn [str_take str_len].
  - now rewrite Nat.min_0_r.
  - destruct (is_continuation c) eqn:Ec.
    + cbn [str_len]. rewrite Ec. apply IH.
    + destruct n as [|n]; [reflexivity|].
      cbn [str_len]. rewrite Ec, IH. reflexivity.
Qed.


Lemma excerpt_length (content : string) :
  str_len (create_post_excerpt content) =
  if Nat.ltb 180 (str_len content) then 183%nat else str_len content.
Proof.
  unfold create_post_excerpt.
  destruct (Nat.ltb_spec 180 (str_len content)) as [Hlong|Hshort];
    [|reflexivity].
  rewrite str_len_app, str_len_take.
  change (str_len "...") with 3%nat. lia.
Qed.

(** X16. The excerpt of a post never has more than 183 characters: it is
    the content itself, or the content has more than 180 characters and
    the excerpt has exactly 183. *)
Theorem create_post_excerpt_length (content : string) :
  (str_len (create_post_excerpt content) <= 183)%nat /\
  (create_post_excerpt content = content \/
   (180 < str_len content)%nat /\
   str_len (create_post_excerpt content) = 183%nat).
Proof.
  pose proof (excerpt_length content) as Hlen.
  unfold create_post_excerpt in *.
  destruct (Nat.ltb_spec 180 (str_len content)) as [Hlong|Hshort].
  - split; [lia|]. right. split; assumption.
  - split; [lia|]. left. reflexivity.
Qed.



Example long_content_sizes :
  str_len long_content = 181%nat /\
  String.length long_content = 362%nat /\
  str_len (create_post_excerpt long_content) = 183%nat /\
  String.length (create_post_excerpt long_content) = 363%nat.
Proof. repeat split; vm_compute; reflexivity. Qed.

Lemma str_replace_count (old new : ascii) (s : string) :
  old <> new -> str_count old (str_replace old new s) = O.
Proof.
  intros Hne. induction s as [|c s IH]; cbn [str_replace str_count];
    [reflexivity|].
  destruct (Ascii.eqb_spec c old) as [->|Hc].
  - destruct (Ascii.eqb_spec new old) as [E|_]; [congruence|exact IH].
  - destruct (Ascii.eqb_spec c old) as [E|_]; [contradiction|exact IH].
Qed.

Lemma str_replace_length (old new : ascii) (s : string) :
  String.length (str_replace old new s) = String.length s.
Proof.
  induction s as [|c s IH]; cbn [str_replace String.length];
    [reflexivity|now rewrite IH].
Qed.

Lemma str_replace_get (old new : ascii) (s : string) (i : nat) :
  String.get i (str_replace old new s) =
  (fun c => if Ascii.eqb c old then new else c) <$> String.get i s.
Proof.
  revert i. induction s as [|c s IH]; intros i; [reflexivity|].
  cbn [str_replace]. destruct i as [|i]; [reflexivity|].
  cbn [String.get]. apply IH.
Qed.

(** X18. The slug of a post is the lowered and stripped title with every
    space replaced by a dash and every other character left in its
    place, whatever the title and whatever lowering and stripping do to
    it: position by position the two agree but for the spaces, so the
    slug holds no space and is as long as the lowered and stripped
    title. *)
Theorem create_post_slug_no_space
    (lower strip : string -> string) (title : string) :
  str_count " " (create_post_slug lower strip title) = O /\
  String.length (create_post_slug lower strip title) =
    String.length (strip (lower title)) /\
  (forall i,
     String.get i (create_post_slug lower strip title) =
     (fun c => if Ascii.eqb c " " then "-"%char else c)
       <$> String.get i (strip (lower title))) /\
  str_count "-" (create_post_slug lower strip title) =
    (str_count " " (strip (lower title))
     + str_count "-" (strip (lower title)))%nat.
Proof.
  unfold create_post_slug. split; [|split; [|split]].
  - apply str_replace_count. discriminate.
  - apply str_replace_length.
  - intros i. apply str_replace_get.
  - induction (strip (lower title)) as [|c s IH];
      cbn [str_replace str_count]; [reflexivity|].
    destruct (Ascii.eqb_spec c " ") as [->|Hc].
    + cbn. rewrite IH. lia.
    + destruct (Ascii.eqb_spec c "-"); rewrite IH; lia.
Qed.

Example create_post_slug_sample :
  create_post_slug ascii_lower ascii_strip "  Hello  World, 2nd Post  "
  = "hello--world,-2nd-post".
Proof. reflexivity. Qed.
